(** * Products API: the validation-and-persistence request pipeline

    A shallow embedding of the route handlers of the products API
    (src/app/api/products/route.ts, [id]/route.ts, dashboard/route.ts),
    of the payload schema (src/lib/utils/validation.ts) and of the
    connection helper (src/lib/database/database.ts), with the properties
    of the specification stated and settled over it.

    Handlers are asynchronous JavaScript functions that talk to a document
    store and may throw.  They are embedded as computations in a small
    state-and-exception monad over a [world] that holds the driver's
    connection state, the products collection, a fault plan and the trace
    of effects issued so far. *)

From Stdlib Require Import String Ascii List Bool Arith Lia QArith.
Import ListNotations.
Close Scope Q_scope.
Open Scope string_scope.
Open Scope list_scope.
Set Warnings "-register-all".

(** ** JavaScript values *)

(** The values a JSON decoder produces.  A number is an IEEE double; every
    finite double is a rational, so [Q] carries its exact value and the
    comparison [x < 1] of the source is the comparison of rationals. *)
Inductive jsvalue : Type :=
| JNull
| JBool (b : bool)
| JNum (q : Q)
| JStr (s : string)
| JArr (items : list jsvalue)
| JObj (props : list (string * jsvalue)).

(** [o[k]]: the first binding of [k]; [None] is JavaScript's [undefined]. *)
Fixpoint get_prop (k : string) (props : list (string * jsvalue)) : option jsvalue :=
  match props with
  | [] => None
  | (k', v) :: rest => if String.eqb k k' then Some v else get_prop k rest
  end.

(** Property access on an arbitrary decoded value: only plain objects carry
    named properties. *)
Definition prop (k : string) (v : jsvalue) : option jsvalue :=
  match v with
  | JObj props => get_prop k props
  | _ => None
  end.

(** An object literal [{ k1: e1, ... }] as JSON serialisation sees it: a
    property whose value is [undefined] (or a function) is left out. *)
Fixpoint obj (kvs : list (string * option jsvalue)) : list (string * jsvalue) :=
  match kvs with
  | [] => []
  | (k, Some v) :: rest => (k, v) :: obj rest
  | (_, None) :: rest => obj rest
  end.

(** ** The schema library (zod), as far as [productSchema] uses it *)

Module Zod.

(** zod's [getParsedType]. *)
Inductive parsed_type :=
| t_undefined | t_null | t_boolean | t_number | t_string | t_array | t_object.

Definition getParsedType (v : option jsvalue) : parsed_type :=
  match v with
  | None => t_undefined
  | Some JNull => t_null
  | Some (JBool _) => t_boolean
  | Some (JNum _) => t_number
  | Some (JStr _) => t_string
  | Some (JArr _) => t_array
  | Some (JObj _) => t_object
  end.

Definition type_name (t : parsed_type) : string :=
  match t with
  | t_undefined => "undefined"
  | t_null => "null"
  | t_boolean => "boolean"
  | t_number => "number"
  | t_string => "string"
  | t_array => "array"
  | t_object => "object"
  end.

Inductive issue_code :=
| invalid_type
| invalid_enum_value
| invalid_string
| too_small.

Definition code_name (c : issue_code) : string :=
  match c with
  | invalid_type => "invalid_type"
  | invalid_enum_value => "invalid_enum_value"
  | invalid_string => "invalid_string"
  | too_small => "too_small"
  end.

Record issue := mkIssue {
  code : issue_code;
  path : list string;
  message : string
}.

(** The checks chained on [z.string()] and [z.number()].  [min] carries the
    message the schema passes to it; [url()] is called without one. *)
Inductive string_check :=
| str_min (n : nat) (msg : string)
| str_url.

Inductive number_check :=
| num_min (bound : Q) (msg : string).

Inductive schema :=
| z_string (checks : list string_check)
| z_number (checks : list number_check)
| z_enum (options : list string).

(** [z.object({...})]: the keys in declaration order. *)
Definition shape := list (string * schema).

Inductive safe_parse_result :=
| ParseSuccess (data : jsvalue)
| ParseFailure (issues : list issue).

(** ['a' | 'b' | ...], zod's [joinValues]. *)
Fixpoint joinValues (options : list string) : string :=
  match options with
  | [] => ""
  | [o] => ("'" ++ o ++ "'")%string
  | o :: rest => ("'" ++ o ++ "' | " ++ joinValues rest)%string
  end.

(** The default message of a type mismatch. *)
Definition type_message (expected : string) (received : parsed_type) : string :=
  match received with
  | t_undefined => "Required"
  | _ => ("Expected " ++ expected ++ ", received " ++ type_name received)%string
  end.

Fixpoint mem_string (s : string) (l : list string) : bool :=
  match l with
  | [] => false
  | x :: rest => String.eqb s x || mem_string s rest
  end.

Section Parse.

(** The platform's URL parser: [isUrl s] holds when [new URL(s)] returns
    instead of throwing.  The [url()] check is exactly that test. *)
Variable isUrl : string -> bool.

(** One check of a string schema fails or passes on its own; the parser
    runs every check of the chain and keeps every failure. *)
Definition run_string_check (p : list string) (s : string) (c : string_check)
  : list issue :=
  match c with
  | str_min n msg =>
      if Nat.ltb (String.length s) n then [mkIssue too_small p msg] else []
  | str_url =>
      if isUrl s then [] else [mkIssue invalid_string p "Invalid url"]
  end.

Definition run_number_check (p : list string) (x : Q) (c : number_check)
  : list issue :=
  match c with
  | num_min bound msg =>
      if Qle_bool bound x then [] else [mkIssue too_small p msg]
  end.

(** [schema._parse] at path [p] on the value found there. *)
Definition parse_value (p : list string) (sch : schema) (v : option jsvalue)
  : list issue :=
  match sch with
  | z_string checks =>
      match v with
      | Some (JStr s) => flat_map (run_string_check p s) checks
      | _ => [mkIssue invalid_type p (type_message "string" (getParsedType v))]
      end
  | z_number checks =>
      match v with
      | Some (JNum x) => flat_map (run_number_check p x) checks
      | _ => [mkIssue invalid_type p (type_message "number" (getParsedType v))]
      end
  | z_enum options =>
      match v with
      | Some (JStr s) =>
          if mem_string s options then []
          else [mkIssue invalid_enum_value p
                  ("Invalid enum value. Expected " ++ joinValues options
                     ++ ", received '" ++ s ++ "'")%string]
      | _ => [mkIssue invalid_type p
                (type_message (joinValues options) (getParsedType v))]
      end
  end.

(** The keys of the shape, each parsed on its own, issues in key order. *)
Fixpoint parse_shape (sh : shape) (props : list (string * jsvalue)) : list issue :=
  match sh with
  | [] => []
  | (k, sch) :: rest => parse_value [k] sch (get_prop k props) ++ parse_shape rest props
  end.

(** Unknown keys are stripped: the data keeps the keys of the shape. *)
Fixpoint strip (sh : shape) (props : list (string * jsvalue)) : list (string * jsvalue) :=
  match sh with
  | [] => []
  | (k, _) :: rest =>
      match get_prop k props with
      | Some v => (k, v) :: strip rest props
      | None => strip rest props
      end
  end.

(** [z.object(shape).safeParse(v)]: never throws. *)
Definition safeParse (sh : shape) (v : jsvalue) : safe_parse_result :=
  match v with
  | JObj props =>
      match parse_shape sh props with
      | [] => ParseSuccess (JObj (strip sh props))
      | issues => ParseFailure issues
      end
  | _ => ParseFailure
           [mkIssue invalid_type [] (type_message "object" (getParsedType (Some v)))]
  end.

End Parse.

(** An issue as the JSON serialiser prints it.  Every issue has [code],
    [path] and [message]; the properties particular to one code
    ([expected], [minimum], ...) are read by no handler and left out. *)
Definition issue_to_json (i : issue) : jsvalue :=
  JObj [("code", JStr (code_name (code i)));
        ("path", JArr (map JStr (path i)));
        ("message", JStr (message i))].

End Zod.

(** ** src/lib/utils/validation.ts *)

Definition productSchema : Zod.shape :=
  [("title", Zod.z_string [Zod.str_min 1 "Title is required"]);
   ("description", Zod.z_string [Zod.str_min 1 "Description is required"]);
   ("category", Zod.z_enum ["men"; "women"; "electronics"; "jewelry"]);
   ("imageUrl", Zod.z_string [Zod.str_url; Zod.str_min 1 "Image URL is required"]);
   ("price", Zod.z_number [Zod.num_min 1%Q "Price is required"]);
   ("creator", Zod.z_string [Zod.str_min 1 "Creator is required"])].

(** ** The identifier validator *)

Module ObjectId.

Definition is_hex_digit (c : ascii) : bool :=
  let n := nat_of_ascii c in
  (Nat.leb 48 n && Nat.leb n 57)        (* 0-9 *)
  || (Nat.leb 97 n && Nat.leb n 102)    (* a-f *)
  || (Nat.leb 65 n && Nat.leb n 70).    (* A-F *)

(** Exactly [n] hexadecimal digits and then the end of the string. *)
Fixpoint hex_run (n : nat) (s : string) : bool :=
  match n, s with
  | O, EmptyString => true
  | S n', String c rest => is_hex_digit c && hex_run n' rest
  | _, _ => false
  end.

(** Modelled from the spec: [mongoose.Types.ObjectId.isValid], a function
    of the store's driver, which is not among the repository's sources.
    The spec gives its contract on strings: it accepts the store's
    identifier format, 24-character hexadecimal, and returns false on
    anything else instead of failing. *)
Definition isValid (id : string) : bool := hex_run 24 id.

End ObjectId.

(** ** Exceptions, the world and the handler monad *)

(** What the driver reports when a round trip fails: the message of the
    error object and its enumerable properties ([code], [codeName], ...),
    which are what a JSON serialiser prints of it. *)
Record driver_fault := mkFault {
  fault_message : string;
  fault_props : list (string * jsvalue)
}.

Inductive exn :=
| SyntaxError (msg : string)        (* [req.json()] on a body that is not JSON *)
| TypeError (msg : string)
| Error (msg : string)              (* [new Error(msg)] *)
| DriverError (f : driver_fault)    (* a rejection coming from the driver *)
| ZodError (issues : list Zod.issue).

(** [JSON.stringify(error)]: the own enumerable properties.  The message
    and stack of a plain [Error] are not enumerable. *)
Definition error_to_json (e : exn) : jsvalue :=
  match e with
  | SyntaxError _ | TypeError _ | Error _ => JObj []
  | DriverError f => JObj (fault_props f)
  | ZodError issues =>
      JObj [("issues", JArr (map Zod.issue_to_json issues)); ("name", JStr "ZodError")]
  end.

(** A stored product: its properties, [_id] among them.  The timestamps
    the store adds are read by no handler and are not modelled. *)
Definition document := list (string * jsvalue).

(** What a handler does to the outside, in the order it happens. *)
Inductive effect :=
| ReadBody                                       (* [req.json()] *)
| Dial                                           (* the driver opens a connection *)
| Find (filter : list (string * string))         (* [Product.find(filter)] *)
| FindById (id : string)
| Save (doc : document)                          (* [doc.save()] *)
| FindByIdAndUpdate (id : string) (update : jsvalue)
| FindByIdAndDelete (id : string).

Inductive log_line :=
| log_info (text : string)
| log_error (label : string) (e : exn).

Record world := mkWorld {
  connected : bool;                      (* the driver's connection is open *)
  collection : list document;            (* the products collection *)
  next_id : nat;                         (* source of fresh identifiers *)
  faults : nat -> option driver_fault;   (* the effect issued at step [n] fails *)
  trace : list effect;
  console : list log_line
}.

Inductive outcome (A : Type) :=
| Returned (a : A)
| Threw (e : exn).
Arguments Returned {A} a.
Arguments Threw {A} e.

Definition M (A : Type) : Type := world -> outcome A * world.

Definition ret {A} (a : A) : M A := fun w => (Returned a, w).

Definition throw {A} (e : exn) : M A := fun w => (Threw e, w).

Definition bind {A B} (m : M A) (k : A -> M B) : M B :=
  fun w =>
    match m w with
    | (Returned a, w') => k a w'
    | (Threw e, w') => (Threw e, w')
    end.

(** [try { body } catch (error) { handler }] *)
Definition try_catch {A} (body : M A) (handler : exn -> M A) : M A :=
  fun w =>
    match body w with
    | (Returned a, w') => (Returned a, w')
    | (Threw e, w') => handler e w'
    end.

Notation "'await' x '<-' c ';' k" := (bind c (fun x => k))
  (at level 10, x name, c at level 100, k at level 200).
Notation "'call' c ';' k" := (bind c (fun _ => k))
  (at level 10, c at level 100, k at level 200).

Definition emit (e : effect) : M unit :=
  fun w => (Returned tt,
            mkWorld (connected w) (collection w) (next_id w) (faults w)
                    (trace w ++ [e]) (console w)).

Definition console_log (text : string) : M unit :=
  fun w => (Returned tt,
            mkWorld (connected w) (collection w) (next_id w) (faults w)
                    (trace w) (console w ++ [log_info text])).

Definition console_error (label : string) (e : exn) : M unit :=
  fun w => (Returned tt,
            mkWorld (connected w) (collection w) (next_id w) (faults w)
                    (trace w) (console w ++ [log_error label e])).

Definition set_connected (b : bool) : M unit :=
  fun w => (Returned tt,
            mkWorld b (collection w) (next_id w) (faults w) (trace w) (console w)).

Definition set_collection (docs : list document) : M unit :=
  fun w => (Returned tt,
            mkWorld (connected w) docs (next_id w) (faults w) (trace w) (console w)).

Definition bump_id : M nat :=
  fun w => (Returned (next_id w),
            mkWorld (connected w) (collection w) (S (next_id w)) (faults w)
                    (trace w) (console w)).

Definition get_collection : M (list document) := fun w => (Returned (collection w), w).

Definition is_connected : M bool := fun w => (Returned (connected w), w).

(** One exchange with the store: it is issued, and the fault plan says
    whether it comes back as a rejection. *)
Definition round_trip (e : effect) : M unit :=
  fun w =>
    match faults w (length (trace w)) with
    | Some f => bind (emit e) (fun _ => throw (DriverError f)) w
    | None => emit e w
    end.

(** ** The driver (mongoose) *)

(** Modelled from the spec: [mongoose.connect], a function of the driver,
    which is not among the repository's sources.  The spec: if already
    connected, it returns without re-dialing; otherwise it dials, and a
    failure to reach the store is an error. *)
Definition mongoose_connect : M unit :=
  await up <- is_connected;
  if up then ret tt
  else call round_trip Dial; set_connected true.

(** A model operation needs the open connection; the driver holds an
    operation issued without one until it times out. *)
Definition with_connection {A} (name : string) (op : M A) : M A :=
  await up <- is_connected;
  if up then op
  else throw (DriverError
                (mkFault ("Operation `products." ++ name ++ "()` buffering timed out")%string [])).

(** ** src/lib/database/database.ts *)

Definition connectToDB : M unit :=
  try_catch
    (call mongoose_connect;
     console_log "connected to MongoDB")
    (fun error =>
       call console_error "Failed to connect to MongoDB:" error;
       throw (Error "Failed to connect to mongoDb")).

(** ** The Product model (src/lib/database/models/Product.ts over mongoose) *)

Module Product.

Definition hex_digit (n : nat) : ascii :=
  nth n (list_ascii_of_string "0123456789abcdef") "0"%char.

Fixpoint hex_string (width n : nat) (acc : string) : string :=
  match width with
  | O => acc
  | S width' => hex_string width' (n / 16) (String (hex_digit (n mod 16)) acc)
  end.

(** Identifiers are generated by the driver; here the [n]-th one is [n]
    written with 24 hexadecimal digits. *)
Definition fresh_id (n : nat) : string := hex_string 24 n "".

(** A filter [{ k: v, ... }] selects the documents whose property [k] is
    the string [v], for every pair; [{}] selects them all. *)
Definition matches (filter : list (string * string)) (doc : document) : bool :=
  forallb (fun kv => match get_prop (fst kv) doc with
                     | Some (JStr s) => String.eqb s (snd kv)
                     | _ => false
                     end) filter.

Definition has_id (id : string) (doc : document) : bool :=
  matches [("_id", id)] doc.

Fixpoint set_prop (k : string) (v : jsvalue) (props : list (string * jsvalue))
  : list (string * jsvalue) :=
  match props with
  | [] => [(k, v)]
  | (k', v') :: rest =>
      if String.eqb k k' then (k, v) :: rest else (k', v') :: set_prop k v rest
  end.

(** [$set]: every property of the update is written onto the document;
    the others are left as they are. *)
Definition assign (update : list (string * jsvalue)) (doc : document) : document :=
  fold_left (fun d kv => set_prop (fst kv) (snd kv) d) update doc.

Fixpoint replace_first (p : document -> bool) (d' : document) (docs : list document)
  : list document :=
  match docs with
  | [] => []
  | d :: rest => if p d then d' :: rest else d :: replace_first p d' rest
  end.

Fixpoint remove_first (p : document -> bool) (docs : list document) : list document :=
  match docs with
  | [] => []
  | d :: rest => if p d then rest else d :: remove_first p rest
  end.

Definition props_of (v : jsvalue) : list (string * jsvalue) :=
  match v with
  | JObj props => props
  | _ => []
  end.

(** [Product.find(filter)] *)
Definition find (filter : list (string * string)) : M (list document) :=
  with_connection "find"
    (call round_trip (Find filter);
     await docs <- get_collection;
     ret (List.filter (matches filter) docs)).

(** [Product.findById(id)] *)
Definition findById (id : string) : M (option document) :=
  with_connection "findOne"
    (call round_trip (FindById id);
     await docs <- get_collection;
     ret (List.find (has_id id) docs)).

(** [new Product(fields)]: the identifier is assigned on construction. *)
Definition new (fields : list (string * jsvalue)) : M document :=
  await n <- bump_id;
  ret (("_id", JStr (fresh_id n)) :: fields).

(** [doc.save()] *)
Definition save (doc : document) : M unit :=
  with_connection "insertOne"
    (call round_trip (Save doc);
     await docs <- get_collection;
     set_collection (docs ++ [doc])).

(** [Product.findByIdAndUpdate(id, update, { new: true })] *)
Definition findByIdAndUpdate (id : string) (update : jsvalue) : M (option document) :=
  with_connection "findOneAndUpdate"
    (call round_trip (FindByIdAndUpdate id update);
     await docs <- get_collection;
     match List.find (has_id id) docs with
     | None => ret None
     | Some doc =>
         let doc' := assign (props_of update) doc in
         call set_collection (replace_first (has_id id) doc' docs);
         ret (Some doc')
     end).

(** [Product.findByIdAndDelete(id)] *)
Definition findByIdAndDelete (id : string) : M (option document) :=
  with_connection "findOneAndDelete"
    (call round_trip (FindByIdAndDelete id);
     await docs <- get_collection;
     match List.find (has_id id) docs with
     | None => ret None
     | Some doc =>
         call set_collection (remove_first (has_id id) docs);
         ret (Some doc)
     end).

End Product.

(** ** Requests and responses *)

Inductive request_body :=
| Json (v : jsvalue)          (* the body text decodes to [v] *)
| NotJson (text : string).    (* the body text is not JSON *)

Record request := mkRequest {
  searchParams : list (string * string);   (* the query string, in order *)
  body : request_body
}.

Record response := mkResponse {
  response_body : jsvalue;
  status : nat
}.

(** [NextResponse.json(body, { status })] *)
Definition NextResponse_json (b : jsvalue) (st : nat) : response := mkResponse b st.

(** [searchParams.get(name)]: the first value of that name, or [null]. *)
Fixpoint searchParams_get (name : string) (q : list (string * string)) : option string :=
  match q with
  | [] => None
  | (k, v) :: rest => if String.eqb name k then Some v else searchParams_get name rest
  end.

(** [await req.json()] *)
Definition req_json (req : request) : M jsvalue :=
  call emit ReadBody;
  match body req with
  | Json v => ret v
  | NotJson _ => throw (SyntaxError "Unexpected token in JSON")
  end.

Definition error_body (msg : string) : jsvalue := JObj (obj [("error", Some (JStr msg))]).

(** ** src/app/api/products/route.ts *)

Module ProductsRoute.

Definition GET : M response :=
  try_catch
    (call connectToDB;
     await products <- Product.find [];
     ret (NextResponse_json (JArr (map JObj products)) 200))
    (fun error =>
       call console_error "products Retrieval Error:" error;
       ret (NextResponse_json
              (JObj (obj [("error", Some (JStr "Failed to retrieve products"));
                          ("details", Some (error_to_json error))]))
              500)).

(** [{ field: issue.path[0], message: issue.message }] *)
Definition field_error (i : Zod.issue) : jsvalue :=
  JObj (obj [("field", option_map JStr (hd_error (Zod.path i)));
             ("message", Some (JStr (Zod.message i)))]).

Section WithUrlParser.
Variable isUrl : string -> bool.

Definition POST (req : request) : M response :=
  try_catch
    (await body <- req_json req;
     match Zod.safeParse isUrl productSchema body with
     | Zod.ParseFailure issues =>
         ret (NextResponse_json
                (JObj (obj [("errors", Some (JArr (map field_error issues)))]))
                400)
     | Zod.ParseSuccess data =>
         let title := prop "title" data in
         let description := prop "description" data in
         let category := prop "category" data in
         let imageUrl := prop "imageUrl" data in
         let creator := prop "creator" data in
         let price := prop "price" data in
         call connectToDB;
         await newProduct <-
           Product.new (obj [("title", title); ("description", description);
                             ("category", category); ("imageUrl", imageUrl);
                             ("creator", creator); ("price", price)]);
         call Product.save newProduct;
         ret (NextResponse_json (JStr "product has been created") 201)
     end)
    (fun error =>
       match error with
       | ZodError issues =>
           call console_error "Input validation error:" error;
           match issues with
           | first :: _ => ret (NextResponse_json (error_body (Zod.message first)) 400)
           | [] => throw (TypeError "Cannot read properties of undefined")
           end
       | _ =>
           call console_error "Error during product creation:" error;
           ret (NextResponse_json (error_body "Failed to create product") 500)
       end).

End WithUrlParser.

End ProductsRoute.

(** ** src/app/api/products/[id]/route.ts *)

Module ProductByIdRoute.

Definition GET (id : string) : M response :=
  try_catch
    (call connectToDB;
     if negb (ObjectId.isValid id) then
       ret (NextResponse_json (error_body "Invalid ID format") 400)
     else
       await product <- Product.findById id;
       match product with
       | None => ret (NextResponse_json (JStr "Product not found") 404)
       | Some doc => ret (NextResponse_json (JObj doc) 200)
       end)
    (fun error =>
       call console_error "" error;
       ret (NextResponse_json (error_body "Failed to fetch product") 500)).

Section WithUrlParser.
Variable isUrl : string -> bool.

Definition PUT (req : request) (id : string) : M response :=
  if negb (ObjectId.isValid id) then
    ret (NextResponse_json (error_body "Invalid ID format") 400)
  else
    try_catch
      (await body <- req_json req;
       match Zod.safeParse isUrl productSchema body with
       | Zod.ParseFailure errors =>
           ret (NextResponse_json
                  (JObj (obj [("error", Some (JArr (map Zod.issue_to_json errors)))]))
                  400)
       | Zod.ParseSuccess data =>
           call connectToDB;
           await updatedProduct <- Product.findByIdAndUpdate id data;
           match updatedProduct with
           | None => ret (NextResponse_json (error_body "Product not found") 404)
           | Some _ =>
               (* [product: Product] is the model constructor, a function:
                  the serialiser leaves the property out *)
               ret (NextResponse_json
                      (JObj (obj [("message", Some (JStr "Product updated successfully"));
                                  ("product", None)]))
                      200)
           end
       end)
      (fun error =>
         call console_error "Error updating product:" error;
         ret (NextResponse_json (error_body "Internal server error") 500)).

End WithUrlParser.

Definition DELETE (id : string) : M response :=
  if String.eqb id "" then
    ret (NextResponse_json (error_body "ID is required") 400)
  else
    try_catch
      (call connectToDB;
       if negb (ObjectId.isValid id) then
         ret (NextResponse_json (error_body "Invalid ID format") 400)
       else
         await deletedProduct <- Product.findByIdAndDelete id;
         match deletedProduct with
         | None => ret (NextResponse_json (error_body "Product not found") 404)
         | Some doc =>
             ret (NextResponse_json
                    (JObj (obj [("message", Some (JStr "Product deleted successfully"));
                                ("deletedProduct", Some (JObj doc))]))
                    200)
         end)
      (fun error =>
         call console_error "Error deleting product:" error;
         ret (NextResponse_json (error_body "Internal server error") 500)).

End ProductByIdRoute.

(** ** src/app/api/products/dashboard/route.ts *)

Module DashboardRoute.

Definition GET (req : request) : M response :=
  try_catch
    (let creator := searchParams_get "creator" (searchParams req) in
     match creator with
     | Some "" => ret (NextResponse_json (error_body "Creator is required") 400)
     | _ =>
         call connectToDB;
         let query := match creator with
                      | Some c => [("creator", c)]
                      | None => []
                      end in
         await products <- Product.find query;
         ret (NextResponse_json (JArr (map JObj products)) 200)
     end)
    (fun error =>
       call console_error "products Retrieval Error:" error;
       ret (NextResponse_json (error_body "Failed to fetch products") 500)).

End DashboardRoute.

(** ** Sample data *)

Definition healthy (_ : nat) : option driver_fault := None.

(** A freshly started process: no connection yet, an empty collection. *)
Definition fresh_world (plan : nat -> option driver_fault) : world :=
  mkWorld false [] 0 plan [] [].

Definition iphone : jsvalue :=
  JObj [("title", JStr "iphone 20"); ("description", JStr "black iphone 16");
        ("category", JStr "electronics");
        ("imageUrl", JStr "https://example.com/i.png");
        ("price", JNum 2000%Q); ("creator", JStr "apple")].

(** A stand-in for the platform's URL parser on the sample data: it
    accepts what starts with [http]. *)
Definition sample_isUrl (s : string) : bool := String.prefix "http" s.

(** ** The rules of the specification, in its own words *)

Module Spec.

Definition field_names : list string :=
  ["title"; "description"; "category"; "imageUrl"; "price"; "creator"].

Definition nonempty_string (v : option jsvalue) : bool :=
  match v with
  | Some (JStr s) => negb (String.eqb s "")
  | _ => false
  end.

Definition in_categories (v : option jsvalue) : bool :=
  match v with
  | Some (JStr s) =>
      String.eqb s "men" || String.eqb s "women"
      || String.eqb s "electronics" || String.eqb s "jewelry"
  | _ => false
  end.

Definition at_least_one (v : option jsvalue) : bool :=
  match v with
  | Some (JNum x) => Qle_bool 1%Q x
  | _ => false
  end.

Section Rules.
Variable isUrl : string -> bool.

Definition nonempty_url (v : option jsvalue) : bool :=
  match v with
  | Some (JStr s) => negb (String.eqb s "") && isUrl s
  | _ => false
  end.

(** The rule of one field, on the value the payload has there. *)
Definition field_rule (k : string) (v : option jsvalue) : bool :=
  if String.eqb k "category" then in_categories v
  else if String.eqb k "imageUrl" then nonempty_url v
  else if String.eqb k "price" then at_least_one v
  else nonempty_string v.

Definition satisfies (k : string) (payload : jsvalue) : bool :=
  field_rule k (prop k payload).

Definition acceptable (payload : jsvalue) : bool :=
  forallb (fun k => satisfies k payload) field_names.

End Rules.

(** 24-character hexadecimal. *)
Inductive hex_char : ascii -> Prop :=
| hex_digit (c : ascii) : In c (list_ascii_of_string "0123456789") -> hex_char c
| hex_lower (c : ascii) : In c (list_ascii_of_string "abcdef") -> hex_char c
| hex_upper (c : ascii) : In c (list_ascii_of_string "ABCDEF") -> hex_char c.

Definition well_formed_id (s : string) : Prop :=
  String.length s = 24 /\ Forall hex_char (list_ascii_of_string s).

End Spec.

(** ** What the validator returns *)

Definition accepts (isUrl : string -> bool) (payload : jsvalue) : bool :=
  match Zod.safeParse isUrl productSchema payload with
  | Zod.ParseSuccess _ => true
  | Zod.ParseFailure _ => false
  end.

Definition issues_of (isUrl : string -> bool) (payload : jsvalue) : list Zod.issue :=
  match Zod.safeParse isUrl productSchema payload with
  | Zod.ParseSuccess _ => []
  | Zod.ParseFailure issues => issues
  end.

(** The field a FieldError names: [issue.path[0]]. *)
Definition field_of (i : Zod.issue) : option string := hd_error (Zod.path i).

Definition names_field (k : string) (i : Zod.issue) : bool :=
  match field_of i with
  | Some f => String.eqb f k
  | None => false
  end.

(** How many FieldErrors name the field [k]. *)
Definition errors_naming (k : string) (issues : list Zod.issue) : nat :=
  length (filter (names_field k) issues).

(** The sentence of the specification on rejections: one FieldError per
    violating field, naming it, and nothing else. *)
Definition one_error_per_violating_field
    (isUrl : string -> bool) (payload : jsvalue) : Prop :=
  accepts isUrl payload = false ->
  (forall k, In k Spec.field_names ->
     errors_naming k (issues_of isUrl payload)
     = if Spec.satisfies isUrl k payload then 0 else 1)
  /\ (forall i, In i (issues_of isUrl payload) ->
        exists k, In k Spec.field_names /\ field_of i = Some k).

(** The checks of [imageUrl] that a value fails: a value that is not a
    string fails the type test only; a string is tried against both the
    URL test and the length test. *)
Definition imageUrl_failures (isUrl : string -> bool) (v : option jsvalue) : nat :=
  match v with
  | Some (JStr s) => (if isUrl s then 0 else 1) + (if String.eqb s "" then 1 else 0)
  | _ => 1
  end.

Definition is_object (v : jsvalue) : bool :=
  match v with
  | JObj _ => true
  | _ => false
  end.

(** ** Observing a run *)

(** The response a handler run ends with, if it ends by returning one. *)
Definition responded {A} (r : outcome A * world) : option A :=
  match fst r with
  | Returned a => Some a
  | Threw _ => None
  end.

Definition world_after {A} (r : outcome A * world) : world := snd r.

(** The store answers every round trip from now on. *)
Definition no_faults (w : world) : Prop := forall n, faults w n = None.

(** The product has [c] as its creator. *)
Definition created_by (c : string) (doc : document) : bool :=
  match get_prop "creator" doc with
  | Some (JStr s) => String.eqb s c
  | _ => false
  end.

(** What an effect writes to the collection, if it is a create or an
    update. *)
Definition written (e : effect) : option jsvalue :=
  match e with
  | Save doc => Some (JObj doc)
  | FindByIdAndUpdate _ update => Some update
  | _ => None
  end.

(** The two documented error envelopes. *)
Definition is_error_envelope (b : jsvalue) : bool :=
  match b with
  | JObj [("error", JStr _)] => true
  | _ => false
  end.

Definition is_field_error (item : jsvalue) : bool :=
  match item with
  | JObj [("field", JStr _); ("message", JStr _)] => true
  | _ => false
  end.

Definition is_errors_envelope (b : jsvalue) : bool :=
  match b with
  | JObj [("errors", JArr items)] => forallb is_field_error items
  | _ => false
  end.

Definition documented_envelope (b : jsvalue) : bool :=
  is_error_envelope b || is_errors_envelope b.

(** [n] calls of [connectToDB] one after the other, each by a handler that
    catches what it throws; the result counts the calls that took the
    connection from closed to open. *)
Fixpoint connect_times (n : nat) (w : world) : nat * world :=
  match n with
  | O => (0, w)
  | S n' =>
      let r := connectToDB w in
      let established := negb (connected w) && connected (snd r) in
      let rest := connect_times n' (snd r) in
      ((if established then 1 else 0) + fst rest, snd rest)
  end.

(** How many times the driver dialled. *)
Definition dials (tr : list effect) : nat :=
  length (filter (fun e => match e with Dial => true | _ => false end) tr).

(** The store cannot be reached at all. *)
Definition unreachable (f : driver_fault) (_ : nat) : option driver_fault := Some f.

(** The store rejects the round trip issued at step [k] and no other. *)
Definition fails_at (k : nat) (f : driver_fault) (n : nat) : option driver_fault :=
  if Nat.eqb n k then Some f else None.

Definition connection_refused : driver_fault :=
  mkFault "connect ECONNREFUSED 127.0.0.1:27017" [].

Definition unauthorized : driver_fault :=
  mkFault "not authorized on shop to execute command { find: products }"
          [("ok", JNum 0%Q); ("code", JNum 13%Q); ("codeName", JStr "Unauthorized")].

Definition interrupted : driver_fault :=
  mkFault "operation was interrupted"
          [("ok", JNum 0%Q); ("code", JNum 11601%Q); ("codeName", JStr "Interrupted")].

Definition a_well_formed_id : string := "0123456789abcdef01234567".

(** The sentence of the specification on bodies that are not JSON, for one
    POST and one PUT request carrying the same body. *)
Definition unparseable_body_gives_500
    (isUrl : string -> bool) (req : request) (id : string) (w : world) : Prop :=
  (exists text, body req = NotJson text) ->
  option_map status (responded (ProductsRoute.POST isUrl req w)) = Some 500
  /\ option_map status (responded (ProductByIdRoute.PUT isUrl req id w)) = Some 500.

(** What a run of a write handler leaves behind: effects added to the
    trace, every write among them carrying data that passes the validator
    and coming after a body that passed it, and a collection whose new or
    changed documents pass the validator. *)
Definition validated_writes
    (isUrl : string -> bool) (req : request) (w w' : world) : Prop :=
  (exists es,
     trace w' = trace w ++ es
     /\ forall e v, In e es -> written e = Some v ->
          accepts isUrl v = true
          /\ exists payload, body req = Json payload /\ accepts isUrl payload = true)
  /\ (forall d, In d (collection w') ->
        In d (collection w) \/ accepts isUrl (JObj d) = true).

(** A computation that never returns a response with status 500. *)
Definition never_500 (m : M response) : Prop :=
  forall w r w', m w = (Returned r, w') -> status r <> 500.

(** ** Reasoning about runs *)

(** What a computation can end with: every value it returns satisfies [P]
    and every exception it throws satisfies [Q], from any world. *)
Definition ends_with {A} (P : A -> Prop) (Q : exn -> Prop) (m : M A) : Prop :=
  forall w, match fst (m w) with
            | Returned a => P a
            | Threw e => Q e
            end.

(** What a computation does to the world: the world after is related to
    the world before by [R], from any world and whatever the outcome. *)
Definition moves {A} (R : world -> world -> Prop) (m : M A) : Prop :=
  forall w, R w (snd (m w)).

Definition anything {A} (_ : A) : Prop := True.

Definition nothing {A} (_ : A) : Prop := False.

Definition is_driver_error (e : exn) : Prop := exists f, e = DriverError f.

Definition is_syntax_error (e : exn) : Prop := exists msg, e = SyntaxError msg.

Definition not_zod_error (e : exn) : Prop := forall issues, e <> ZodError issues.

Definition status_in (codes : list nat) (r : response) : Prop := In (status r) codes.

(** An effect that reads the store or opens the connection, and writes
    nothing. *)
Definition reads_only (e : effect) : bool :=
  match e with
  | Dial | Find _ | FindById _ => true
  | _ => false
  end.

(** The world after a run that asked the store for nothing but reads: the
    collection and the identifier source are as they were. *)
Definition only_read (w w' : world) : Prop :=
  collection w' = collection w
  /\ next_id w' = next_id w
  /\ faults w' = faults w
  /\ exists es, trace w' = trace w ++ es /\ forallb reads_only es = true.


(** How many documents carry the identifier. *)
Definition count_id (id : string) (docs : list document) : nat :=
  length (filter (Product.has_id id) docs).

(** ** More sample data *)

(** The world after the iphone was created on a fresh process. *)
Definition one_product_world : world :=
  world_after (ProductsRoute.POST sample_isUrl (mkRequest [] (Json iphone))
                 (fresh_world healthy)).

(** The identifier the first created product gets. *)
Definition first_id : string := "000000000000000000000000".

Definition cheaper_iphone : list (string * jsvalue) :=
  [("title", JStr "iphone 20"); ("description", JStr "black iphone 16");
   ("category", JStr "electronics");
   ("imageUrl", JStr "https://example.com/i.png");
   ("price", JNum 1500%Q); ("creator", JStr "apple")].

(** A response that, when its status is 404, has the body [b]. *)
Definition not_found_is (b : jsvalue) (r : response) : Prop :=
  status r = 404 -> response_body r = b.

(** The JSON type the schema declares for a field: a number for [price],
    a string for the others. *)
Definition has_declared_type (k : string) (v : option jsvalue) : bool :=
  match v with
  | Some (JStr _) => negb (String.eqb k "price")
  | Some (JNum _) => String.eqb k "price"
  | _ => false
  end.

(** The FieldErrors that name the field [k]. *)
Definition errors_of_field (k : string) (issues : list Zod.issue) : list Zod.issue :=
  filter (names_field k) issues.

(** ** src/lib/database/models/Product.ts *)

Module ProductModel.

Inductive schema_type := String_ | Number_.

(** The options of one path of the schema: [{ type, required, enum }]. *)
Record path_options := mkPath {
  type : schema_type;
  required : bool;
  enum : list string
}.

Definition ProductSchema : list (string * path_options) :=
  [("title", mkPath String_ true []);
   ("description", mkPath String_ true []);
   ("category", mkPath String_ true ["men"; "women"; "electronics"; "jewelry"]);
   ("imageUrl", mkPath String_ true []);
   ("price", mkPath Number_ true []);
   ("creator", mkPath String_ true [])].

(** The [required] validator of the driver, on a value that has the
    declared type already: a string must have a length, a number must be
    there.  A value of another type is cast first; casts are not modelled
    and such a value is counted as failing. *)
Definition checkRequired (t : schema_type) (v : option jsvalue) : bool :=
  match t, v with
  | String_, Some (JStr s) => negb (String.eqb s "")
  | Number_, Some (JNum _) => true
  | _, _ => false
  end.

(** The [enum] validator: an absent value passes, a present one must be
    one of the values. *)
Definition checkEnum (values : list string) (v : option jsvalue) : bool :=
  match values, v with
  | [], _ => true
  | _, None => true
  | _, Some (JStr s) => Zod.mem_string s values
  | _, Some _ => false
  end.

(** The validators of one path that the value fails, by kind. *)
Definition failed_validators (o : path_options) (v : option jsvalue) : list string :=
  (if required o && negb (checkRequired (type o) v) then ["required"] else [])
  ++ (if checkEnum (enum o) v then [] else ["enum"]).

(** [doc.validateSync()]: the failing paths with the kinds of failure. *)
Fixpoint validate (sch : list (string * path_options)) (doc : document)
  : list (string * string) :=
  match sch with
  | [] => []
  | (k, o) :: rest =>
      map (fun kind => (k, kind)) (failed_validators o (get_prop k doc))
      ++ validate rest doc
  end.

End ProductModel.

(** The iphone with two keys the schema does not know. *)
Definition iphone_with_extras : list (string * jsvalue) :=
  ("admin", JBool true) :: cheaper_iphone ++ [("_id", JStr "ffffffffffffffffffffffff")].

(** ** Counting round trips *)

Definition is_repository_op (e : effect) : bool :=
  match e with
  | Find _ | FindById _ | Save _ | FindByIdAndUpdate _ _ | FindByIdAndDelete _ => true
  | ReadBody | Dial => false
  end.

(** How many repository operations were issued. *)
Definition repository_ops (tr : list effect) : nat :=
  length (filter is_repository_op tr).

(** A computation that, from any world, adds to the trace at most [a]
    dials, and none when the connection is open, and at most [b]
    repository operations; and that does not close an open connection. *)
Definition spends {A} (a b : nat) (m : M A) : Prop :=
  forall w,
    exists es,
      trace (snd (m w)) = trace w ++ es
      /\ dials es <= (if connected w then 0 else a)
      /\ repository_ops es <= b
      /\ (connected w = true -> connected (snd (m w)) = true).

(** * Properties *)

(** ** The schema validator *)

(** Membership in a list of at most one element. *)
Ltac in_singleton H :=
  simpl in H;
  repeat match type of H with
         | _ \/ _ => destruct H as [H | H]
         | False => destruct H
         end;
  subst; reflexivity.

Section ValidatorFacts.
Variable isUrl : string -> bool.

Lemma errors_naming_app (k : string) (l1 l2 : list Zod.issue) :
  errors_naming k (l1 ++ l2) = errors_naming k l1 + errors_naming k l2.
Proof.
  unfold errors_naming. rewrite filter_app. apply length_app.
Qed.

(** Every issue raised for a value carries the path it was parsed at. *)
Lemma parse_value_path (p : list string) (sch : Zod.schema) (v : option jsvalue)
    (i : Zod.issue) :
  In i (Zod.parse_value isUrl p sch v) -> Zod.path i = p.
Proof.
  destruct sch as [checks | checks | options]; simpl.
  - destruct v as [[ | | | s | | ]|];
      try (intros [<- | []]; reflexivity).
    rewrite in_flat_map. intros [c [_ Hc]].
    destruct c as [n msg | ]; simpl in Hc.
    + destruct (Nat.ltb _ _); in_singleton Hc.
    + destruct (isUrl s); in_singleton Hc.
  - destruct v as [[ | | x | | | ]|];
      try (intros [<- | []]; reflexivity).
    rewrite in_flat_map. intros [c [_ Hc]].
    destruct c as [bound msg]; simpl in Hc.
    destruct (Qle_bool _ _); in_singleton Hc.
  - destruct v as [[ | | | s | | ]|];
      try (intros [<- | []]; reflexivity).
    destruct (Zod.mem_string s options); intros Hc; in_singleton Hc.
Qed.

(** The issues of the field [k'] all name [k'] and no other field. *)
Lemma errors_naming_parse_value (k k' : string) (sch : Zod.schema)
    (v : option jsvalue) :
  errors_naming k (Zod.parse_value isUrl [k'] sch v)
  = if String.eqb k' k then length (Zod.parse_value isUrl [k'] sch v) else 0.
Proof.
  unfold errors_naming.
  assert (H : forall l : list Zod.issue,
             (forall i, In i l -> Zod.path i = [k']) ->
             length (filter (names_field k) l)
             = if String.eqb k' k then length l else 0).
  { induction l as [| i l IH]; intros Hl.
    - destruct (String.eqb k' k); reflexivity.
    - assert (Hi : names_field k i = String.eqb k' k).
      { unfold names_field, field_of.
        rewrite (Hl i (or_introl eq_refl)). reflexivity. }
      cbn [filter]. rewrite Hi.
      specialize (IH (fun j Hj => Hl j (or_intror Hj))).
      destruct (String.eqb k' k); cbn [length]; rewrite IH; reflexivity. }
  apply H. intros i Hi. apply (parse_value_path _ _ _ _ Hi).
Qed.

(** The number of issues of each kind of field. *)
Lemma required_string_issues (p : list string) (msg : string) (v : option jsvalue) :
  length (Zod.parse_value isUrl p (Zod.z_string [Zod.str_min 1 msg]) v)
  = if Spec.nonempty_string v then 0 else 1.
Proof.
  destruct v as [[ | | | s | | ]|]; try reflexivity.
  destruct s; reflexivity.
Qed.

Lemma category_issues (p : list string) (v : option jsvalue) :
  length (Zod.parse_value isUrl p
            (Zod.z_enum ["men"; "women"; "electronics"; "jewelry"]) v)
  = if Spec.in_categories v then 0 else 1.
Proof.
  destruct v as [[ | | | s | | ]|]; try reflexivity.
  simpl. rewrite orb_false_r, !orb_assoc.
  destruct (_ || _ || _ || _); reflexivity.
Qed.

Lemma price_issues (p : list string) (msg : string) (v : option jsvalue) :
  length (Zod.parse_value isUrl p (Zod.z_number [Zod.num_min 1%Q msg]) v)
  = if Spec.at_least_one v then 0 else 1.
Proof.
  destruct v as [[ | | x | | | ]|]; try reflexivity.
  simpl. destruct (Qle_bool 1 x); reflexivity.
Qed.

Lemma imageUrl_issues (p : list string) (msg : string) (v : option jsvalue) :
  length (Zod.parse_value isUrl p (Zod.z_string [Zod.str_url; Zod.str_min 1 msg]) v)
  = imageUrl_failures isUrl v.
Proof.
  destruct v as [[ | | | s | | ]|]; try reflexivity.
  simpl. destruct (isUrl s); destruct s; reflexivity.
Qed.

Lemma imageUrl_failures_rule (v : option jsvalue) :
  (Spec.nonempty_url isUrl v = true -> imageUrl_failures isUrl v = 0)
  /\ (Spec.nonempty_url isUrl v = false ->
        1 <= imageUrl_failures isUrl v <= 2).
Proof.
  destruct v as [[ | | | s | | ]|]; simpl; try (split; [discriminate | lia]).
  destruct (isUrl s); destruct s; simpl; split; try discriminate; lia.
Qed.

(** The issues of an object payload, field by field. *)
Lemma issues_of_object (props : list (string * jsvalue)) :
  Zod.parse_shape isUrl productSchema props
  = Zod.parse_value isUrl ["title"]
      (Zod.z_string [Zod.str_min 1 "Title is required"]) (get_prop "title" props)
    ++ Zod.parse_value isUrl ["description"]
         (Zod.z_string [Zod.str_min 1 "Description is required"])
         (get_prop "description" props)
    ++ Zod.parse_value isUrl ["category"]
         (Zod.z_enum ["men"; "women"; "electronics"; "jewelry"])
         (get_prop "category" props)
    ++ Zod.parse_value isUrl ["imageUrl"]
         (Zod.z_string [Zod.str_url; Zod.str_min 1 "Image URL is required"])
         (get_prop "imageUrl" props)
    ++ Zod.parse_value isUrl ["price"]
         (Zod.z_number [Zod.num_min 1%Q "Price is required"]) (get_prop "price" props)
    ++ Zod.parse_value isUrl ["creator"]
         (Zod.z_string [Zod.str_min 1 "Creator is required"]) (get_prop "creator" props).
Proof.
  unfold productSchema. cbn [Zod.parse_shape]. rewrite app_nil_r. reflexivity.
Qed.

(** How many errors name a field of an object payload. *)
Lemma errors_naming_object (props : list (string * jsvalue)) (k : string) :
  In k Spec.field_names ->
  errors_naming k (Zod.parse_shape isUrl productSchema props)
  = if String.eqb k "imageUrl" then imageUrl_failures isUrl (get_prop k props)
    else if Spec.field_rule isUrl k (get_prop k props) then 0 else 1.
Proof.
  intros Hk. rewrite issues_of_object, !errors_naming_app, !errors_naming_parse_value.
  simpl in Hk.
  destruct Hk as [<- | [<- | [<- | [<- | [<- | [<- | []]]]]]];
    cbn [String.eqb Ascii.eqb Bool.eqb andb]; cbn [Nat.add];
    rewrite ?Nat.add_0_r;
    first [ apply required_string_issues | apply category_issues
          | apply price_issues | apply imageUrl_issues ].
Qed.

Lemma length_zero_iff_nil {A} (l : list A) : length l = 0 <-> l = [].
Proof. destruct l; simpl; split; congruence. Qed.

(** An object payload raises no issue exactly when its six fields satisfy
    their rules. *)
Lemma object_accepted (props : list (string * jsvalue)) :
  Zod.parse_shape isUrl productSchema props = []
  <-> Spec.acceptable isUrl (JObj props) = true.
Proof.
  rewrite <- length_zero_iff_nil, issues_of_object, !length_app.
  rewrite !required_string_issues, category_issues, price_issues, imageUrl_issues.
  unfold Spec.acceptable, Spec.satisfies. simpl.
  rewrite andb_true_r.
  pose proof (imageUrl_failures_rule (get_prop "imageUrl" props)) as [Hu1 Hu2].
  unfold Spec.field_rule; simpl.
  destruct (Spec.nonempty_string (get_prop "title" props));
    destruct (Spec.nonempty_string (get_prop "description" props));
    destruct (Spec.in_categories (get_prop "category" props));
    destruct (Spec.at_least_one (get_prop "price" props));
    destruct (Spec.nonempty_string (get_prop "creator" props));
    destruct (Spec.nonempty_url isUrl (get_prop "imageUrl" props));
    simpl; split; intros H; try discriminate; try reflexivity;
    try (specialize (Hu1 eq_refl)); try (specialize (Hu2 eq_refl)); lia.
Qed.

Lemma accepts_iff_acceptable (payload : jsvalue) :
  accepts isUrl payload = Spec.acceptable isUrl payload.
Proof.
  destruct payload as [ | b | x | s | items | props]; try reflexivity.
  unfold accepts, Zod.safeParse.
  pose proof (object_accepted props) as H.
  destruct (Zod.parse_shape isUrl productSchema props) as [| i l].
  - symmetry. apply H. reflexivity.
  - destruct (Spec.acceptable isUrl (JObj props)); [| reflexivity].
    destruct H as [_ H]. discriminate (H eq_refl).
Qed.

Lemma issues_of_object_payload (props : list (string * jsvalue)) :
  issues_of isUrl (JObj props) = Zod.parse_shape isUrl productSchema props.
Proof.
  unfold issues_of, Zod.safeParse.
  destruct (Zod.parse_shape isUrl productSchema props); reflexivity.
Qed.

End ValidatorFacts.

(** C1 (as amended).  For every payload, [productSchema] accepts it exactly
    when title, description and creator are non-empty strings, category is
    one of the four values, imageUrl is a non-empty string that parses as a
    URL and price is a number that is at least 1.  When the payload is an
    object, every error names one of the six fields; a field that satisfies
    its rule gets no error, a violating field other than imageUrl gets
    exactly one, and a violating imageUrl gets one per failed check, that
    is one or two.  A payload that is not an object gets a single error
    that names no field. *)
Theorem C1_validator_accepts_and_reports (isUrl : string -> bool) (payload : jsvalue) :
  accepts isUrl payload = Spec.acceptable isUrl payload
  /\ match payload with
     | JObj props =>
         (forall k, In k Spec.field_names ->
            (Spec.satisfies isUrl k payload = true ->
               errors_naming k (issues_of isUrl payload) = 0)
            /\ (Spec.satisfies isUrl k payload = false ->
                  if String.eqb k "imageUrl"
                  then errors_naming k (issues_of isUrl payload)
                       = imageUrl_failures isUrl (get_prop k props)
                       /\ 1 <= errors_naming k (issues_of isUrl payload) <= 2
                  else errors_naming k (issues_of isUrl payload) = 1))
         /\ (forall i, In i (issues_of isUrl payload) ->
               exists k, In k Spec.field_names /\ field_of i = Some k)
     | _ =>
         exists msg, issues_of isUrl payload = [Zod.mkIssue Zod.invalid_type [] msg]
                     /\ map field_of (issues_of isUrl payload) = [None]
     end.
Proof.
  split; [apply accepts_iff_acceptable |].
  destruct payload as [ | b | x | s | items | props];
    try (eexists; split; reflexivity).
  rewrite issues_of_object_payload. split.
  - intros k Hk. rewrite (errors_naming_object isUrl props k Hk).
    unfold Spec.satisfies, prop.
    simpl in Hk.
    destruct Hk as [<- | [<- | [<- | [<- | [<- | [<- | []]]]]]];
      cbn [String.eqb Ascii.eqb Bool.eqb andb];
      try (split; intros ->; reflexivity).
    pose proof (imageUrl_failures_rule isUrl (get_prop "imageUrl" props)) as [H1 H2].
    unfold Spec.field_rule. cbn [String.eqb Ascii.eqb Bool.eqb andb].
    split; intros H; [apply H1 | split; [reflexivity | apply H2]]; exact H.
  - intros i. rewrite issues_of_object, !in_app_iff.
    unfold field_of, Spec.field_names.
    intros H.
    repeat match type of H with
           | _ \/ _ => destruct H as [H | H]
           end;
      apply parse_value_path in H; rewrite H; eexists; (split; [| reflexivity]);
      simpl; tauto.
Qed.

(** C1, the sentence as the specification has it, fails on the payload
    [null]: it is rejected with one error that names no field, while all
    six fields violate their rules.  This holds whatever the URL parser. *)
Lemma C1_null_payload_counterexample :
  ~ (exists isUrl, one_error_per_violating_field isUrl JNull).
Proof.
  intros [isUrl H]. destruct (H eq_refl) as [H1 _].
  specialize (H1 "title" (or_introl eq_refl)).
  discriminate H1.
Qed.

(** An empty imageUrl fails both of its checks and is reported twice. *)
Example empty_imageUrl_reported_twice :
  map field_of
    (issues_of sample_isUrl
       (JObj [("title", JStr "t"); ("description", JStr "d");
              ("category", JStr "men"); ("imageUrl", JStr "");
              ("price", JNum 5%Q); ("creator", JStr "c")]))
  = [Some "imageUrl"; Some "imageUrl"].
Proof. reflexivity. Qed.

Example iphone_accepted : accepts sample_isUrl iphone = true.
Proof. reflexivity. Qed.

(** ** The identifier validator *)

Lemma is_hex_digit_spec (c : ascii) :
  ObjectId.is_hex_digit c = true <-> Spec.hex_char c.
Proof.
  split.
  - destruct c as [[] [] [] [] [] [] [] []]; vm_compute; intros H;
      try discriminate H;
      first [ apply Spec.hex_digit; simpl; tauto
            | apply Spec.hex_lower; simpl; tauto
            | apply Spec.hex_upper; simpl; tauto ].
  - intros [c' H | c' H | c' H]; simpl in H;
      repeat match type of H with
             | _ \/ _ => destruct H as [H | H]
             | False => destruct H
             end;
      subst; reflexivity.
Qed.

Lemma hex_run_spec (n : nat) (s : string) :
  ObjectId.hex_run n s = true
  <-> String.length s = n /\ Forall Spec.hex_char (list_ascii_of_string s).
Proof.
  revert s. induction n as [| n IH]; intros [| c s]; simpl.
  - split; [intros _; split; [reflexivity | constructor] | reflexivity].
  - split; [discriminate | intros [H _]; discriminate H].
  - split; [discriminate | intros [H _]; discriminate H].
  - rewrite andb_true_iff, is_hex_digit_spec, IH. split.
    + intros [Hc [Hl Hs]]. split; [congruence | constructor; assumption].
    + intros [Hl Hs]. inversion Hs; subst. repeat split; try assumption.
      congruence.
Qed.

(** C9.  The identifier validator returns true on exactly the strings made
    of 24 hexadecimal characters and false on every other string.  It is a
    total function of the string alone: it reads neither the collection nor
    the connection, and it has no failing outcome. *)
Theorem C9_isValid_iff_24_hex (id : string) :
  (ObjectId.isValid id = true <-> Spec.well_formed_id id)
  /\ (ObjectId.isValid id = false <-> ~ Spec.well_formed_id id).
Proof.
  assert (H : ObjectId.isValid id = true <-> Spec.well_formed_id id)
    by apply hex_run_spec.
  split; [exact H |].
  destruct (ObjectId.isValid id); split; intros H'; try discriminate;
    try reflexivity.
  - exfalso. apply H'. apply H. reflexivity.
  - intros Hw. apply H in Hw. discriminate Hw.
Qed.

Example isValid_samples :
  ObjectId.isValid "0123456789abcdefABCDEF01" = true
  /\ ObjectId.isValid "abc" = false
  /\ ObjectId.isValid "" = false
  /\ ObjectId.isValid "0123456789abcdefABCDEF0g" = false
  /\ ObjectId.isValid "0123456789abcdefABCDEF012" = false.
Proof. repeat split. Qed.

(** A well-formed identifier that no document has is accepted by the
    format check and answered 404 by the lookup. *)
Example well_formed_absent_id_is_404 :
  ObjectId.isValid a_well_formed_id = true
  /\ option_map status (responded (ProductByIdRoute.GET a_well_formed_id (fresh_world healthy)))
     = Some 404
  /\ option_map status (responded (ProductByIdRoute.DELETE a_well_formed_id (fresh_world healthy)))
     = Some 404.
Proof. repeat split. Qed.

(** ** The connection helper *)

(** The three ways a call of [connectToDB] can go. *)
Lemma connectToDB_connected (w : world) :
  connected w = true ->
  connectToDB w
  = (Returned tt,
     mkWorld true (collection w) (next_id w) (faults w) (trace w)
             (console w ++ [log_info "connected to MongoDB"])).
Proof.
  intros H. unfold connectToDB, try_catch, bind, mongoose_connect, bind, is_connected.
  rewrite H. simpl. unfold console_log. simpl. rewrite H. reflexivity.
Qed.

Lemma connectToDB_dials (w : world) :
  connected w = false ->
  faults w (length (trace w)) = None ->
  connectToDB w
  = (Returned tt,
     mkWorld true (collection w) (next_id w) (faults w) (trace w ++ [Dial])
             (console w ++ [log_info "connected to MongoDB"])).
Proof.
  intros H F.
  unfold connectToDB, try_catch, bind, mongoose_connect, bind, is_connected, round_trip.
  rewrite H. simpl. rewrite F. reflexivity.
Qed.

Lemma connectToDB_fails (w : world) (f : driver_fault) :
  connected w = false ->
  faults w (length (trace w)) = Some f ->
  connectToDB w
  = (Threw (Error "Failed to connect to mongoDb"),
     mkWorld false (collection w) (next_id w) (faults w) (trace w ++ [Dial])
             (console w ++ [log_error "Failed to connect to MongoDB:" (DriverError f)])).
Proof.
  intros H F.
  unfold connectToDB, try_catch, bind, mongoose_connect, bind, is_connected, round_trip.
  rewrite H. simpl. rewrite F. simpl. rewrite H. reflexivity.
Qed.

(** A call of [connectToDB] either returns with the connection open, having
    dialled at most once, or dials, fails and throws its own error. *)
Lemma connectToDB_outcome (w : world) :
  (exists w', connectToDB w = (Returned tt, w')
              /\ connected w' = true
              /\ collection w' = collection w
              /\ next_id w' = next_id w
              /\ faults w' = faults w
              /\ (trace w' = trace w
                  \/ (connected w = false /\ trace w' = trace w ++ [Dial])))
  \/ (exists w' f, connectToDB w = (Threw (Error "Failed to connect to mongoDb"), w')
                   /\ connected w = false
                   /\ faults w (length (trace w)) = Some f
                   /\ connected w' = false
                   /\ collection w' = collection w
                   /\ trace w' = trace w ++ [Dial]).
Proof.
  destruct (connected w) eqn:H.
  - left. eexists. rewrite (connectToDB_connected w H). simpl. repeat split.
    left. reflexivity.
  - destruct (faults w (length (trace w))) as [f |] eqn:F.
    + right. do 2 eexists. rewrite (connectToDB_fails w f H F). simpl. repeat split.
    + left. eexists. rewrite (connectToDB_dials w H F). simpl. repeat split.
      right. split; reflexivity.
Qed.

Lemma find_connected (filter : list (string * string)) (w : world) :
  connected w = true ->
  Product.find filter w
  = match faults w (length (trace w)) with
    | None =>
        (Returned (List.filter (Product.matches filter) (collection w)),
         mkWorld true (collection w) (next_id w) (faults w)
                 (trace w ++ [Find filter]) (console w))
    | Some f =>
        (Threw (DriverError f),
         mkWorld true (collection w) (next_id w) (faults w)
                 (trace w ++ [Find filter]) (console w))
    end.
Proof.
  intros H. unfold Product.find, with_connection, bind, is_connected, round_trip.
  rewrite H. simpl. destruct (faults w (length (trace w))); simpl; rewrite H; reflexivity.
Qed.

Lemma filter_all {A} (p : A -> bool) (l : list A) :
  (forall x, p x = true) -> filter p l = l.
Proof.
  intros H. induction l as [| x l IH]; simpl; [| rewrite H, IH]; reflexivity.
Qed.

Lemma matches_creator (c : string) (doc : document) :
  Product.matches [("creator", c)] doc = created_by c doc.
Proof.
  unfold Product.matches, created_by. simpl. apply andb_true_r.
Qed.

(** The dashboard listing after the connection step. *)
Lemma dashboard_fetch (filter : list (string * string)) (w : world) :
  exists r,
    responded
      (try_catch
         (call connectToDB;
          await products <- Product.find filter;
          ret (NextResponse_json (JArr (map JObj products)) 200))
         (fun error =>
            call console_error "products Retrieval Error:" error;
            ret (NextResponse_json (error_body "Failed to fetch products") 500)) w)
    = Some r
    /\ ((status r = 200
         /\ response_body r
            = JArr (map JObj (List.filter (Product.matches filter) (collection w))))
        \/ (status r = 500
            /\ response_body r = error_body "Failed to fetch products"
            /\ ~ no_faults w)).
Proof.
  unfold try_catch, bind at 1.
  destruct (connectToDB_outcome w)
    as [[w' [E [Hc [Hd [_ [Hf _]]]]]] | [w' [f [E [_ [F _]]]]]]; rewrite E.
  - unfold bind. rewrite (find_connected filter w' Hc).
    destruct (faults w' (length (trace w'))) as [f |] eqn:F.
    + eexists. split; [reflexivity |]. right. repeat split.
      intros Hn. rewrite Hf, Hn in F. discriminate F.
    + eexists. split; [reflexivity |]. left. simpl. rewrite Hd. split; reflexivity.
  - eexists. split; [reflexivity |]. right. repeat split.
    intros Hn. rewrite Hn in F. discriminate F.
Qed.

(** C2.  The filter-by-creator endpoint.  When the [creator] parameter is
    present and empty the response is 400 and the world is left as it was:
    nothing is fetched.  When it is absent the response is 200 with the
    whole collection, and when it is a non-empty [c] the response is 200
    with exactly the products whose creator is [c], in both cases unless
    the store fails, and then it is 500 with the generic message. *)
Theorem C2_dashboard_by_creator (req : request) (w : world) :
  match searchParams_get "creator" (searchParams req) with
  | Some "" =>
      DashboardRoute.GET req w
      = (Returned (NextResponse_json (error_body "Creator is required") 400), w)
  | None =>
      exists r,
        responded (DashboardRoute.GET req w) = Some r
        /\ ((status r = 200 /\ response_body r = JArr (map JObj (collection w)))
            \/ (status r = 500
                /\ response_body r = error_body "Failed to fetch products"
                /\ ~ no_faults w))
  | Some c =>
      exists r,
        responded (DashboardRoute.GET req w) = Some r
        /\ ((status r = 200
             /\ response_body r
                = JArr (map JObj (filter (created_by c) (collection w))))
            \/ (status r = 500
                /\ response_body r = error_body "Failed to fetch products"
                /\ ~ no_faults w))
  end.
Proof.
  unfold DashboardRoute.GET.
  destruct (searchParams_get "creator" (searchParams req)) as [[| a c] |].
  - reflexivity.
  - destruct (dashboard_fetch [("creator", String a c)] w) as [r [Hr H]].
    exists r. split; [exact Hr |].
    rewrite (filter_ext _ _ (matches_creator (String a c))) in H. exact H.
  - destruct (dashboard_fetch [] w) as [r [Hr H]].
    exists r. split; [exact Hr |].
    rewrite filter_all in H by reflexivity. exact H.
Qed.

(** The concrete scenario of the specification: after the iphone is
    created, the dashboard of [apple] lists exactly that product, the
    dashboard of an empty creator is refused, and no creator lists all. *)
Example C2_dashboard_scenario :
  let w := world_after (ProductsRoute.POST sample_isUrl (mkRequest [] (Json iphone))
                          (fresh_world healthy)) in
  option_map status (responded (DashboardRoute.GET (mkRequest [("creator", "apple")] (Json JNull)) w))
  = Some 200
  /\ option_map response_body
       (responded (DashboardRoute.GET (mkRequest [("creator", "apple")] (Json JNull)) w))
     = Some (JArr (map JObj (collection w)))
  /\ option_map status (responded (DashboardRoute.GET (mkRequest [("creator", "")] (Json JNull)) w))
     = Some 400
  /\ option_map status (responded (DashboardRoute.GET (mkRequest [("creator", "samsung")] (Json JNull)) w))
     = Some 200
  /\ option_map response_body
       (responded (DashboardRoute.GET (mkRequest [("creator", "samsung")] (Json JNull)) w))
     = Some (JArr [])
  /\ option_map response_body (responded (DashboardRoute.GET (mkRequest [] (Json JNull)) w))
     = Some (JArr (map JObj (collection w))).
Proof. repeat split. Qed.

(** ** The single-resource endpoint: the identifier check *)

(** On a process that has no connection yet, GET dials the store before it
    looks at the identifier. *)
Lemma GET_dials_before_id_check (id : string) (w : world) :
  connected w = false ->
  exists es, trace (world_after (ProductByIdRoute.GET id w)) = trace w ++ Dial :: es.
Proof.
  intros H. unfold ProductByIdRoute.GET, world_after, try_catch, bind at 1.
  destruct (faults w (length (trace w))) as [f |] eqn:F.
  - rewrite (connectToDB_fails w f H F). exists []. reflexivity.
  - rewrite (connectToDB_dials w H F).
    destruct (ObjectId.isValid id); simpl.
    + unfold bind, Product.findById, with_connection, bind, is_connected, round_trip.
      simpl. rewrite length_app. simpl.
      destruct (faults w (length (trace w) + 1)); simpl.
      * eexists. rewrite <- app_assoc. reflexivity.
      * destruct (find _ _); eexists; simpl; rewrite <- app_assoc; reflexivity.
    + exists []. reflexivity.
Qed.

(** So does DELETE, once the identifier is not empty. *)
Lemma DELETE_dials_before_id_check (id : string) (w : world) :
  id <> "" ->
  connected w = false ->
  exists es, trace (world_after (ProductByIdRoute.DELETE id w)) = trace w ++ Dial :: es.
Proof.
  intros Hid H. unfold ProductByIdRoute.DELETE.
  destruct (String.eqb id "") eqn:E; [apply String.eqb_eq in E; contradiction |].
  unfold world_after, try_catch, bind at 1.
  destruct (faults w (length (trace w))) as [f |] eqn:F.
  - rewrite (connectToDB_fails w f H F). exists []. reflexivity.
  - rewrite (connectToDB_dials w H F).
    destruct (ObjectId.isValid id); simpl.
    + unfold bind, Product.findByIdAndDelete, with_connection, bind, is_connected, round_trip.
      simpl. rewrite length_app. simpl.
      destruct (faults w (length (trace w) + 1)); simpl.
      * eexists. rewrite <- app_assoc. reflexivity.
      * destruct (find _ _); eexists; simpl; rewrite <- app_assoc; reflexivity.
    + exists []. reflexivity.
Qed.

(** C3, evaluated.  With the malformed identifier [abc] on a process that
    has no connection yet, GET and DELETE dial the store before they answer
    400, and answer 500 when the store cannot be reached; PUT answers 400
    without any round trip. *)
Theorem C3_id_check_after_connect :
  trace (world_after (ProductByIdRoute.GET "abc" (fresh_world healthy))) = [Dial]
  /\ option_map status (responded (ProductByIdRoute.GET "abc" (fresh_world healthy)))
     = Some 400
  /\ option_map status
       (responded (ProductByIdRoute.GET "abc" (fresh_world (unreachable connection_refused))))
     = Some 500
  /\ trace (world_after (ProductByIdRoute.DELETE "abc" (fresh_world healthy))) = [Dial]
  /\ option_map status
       (responded (ProductByIdRoute.DELETE "abc" (fresh_world (unreachable connection_refused))))
     = Some 500
  /\ trace (world_after
              (ProductByIdRoute.PUT sample_isUrl (mkRequest [] (Json iphone)) "abc"
                 (fresh_world (unreachable connection_refused)))) = []
  /\ option_map status
       (responded (ProductByIdRoute.PUT sample_isUrl (mkRequest [] (Json iphone)) "abc"
                     (fresh_world (unreachable connection_refused))))
     = Some 400.
Proof. repeat split. Qed.

(** C4.  A PUT whose identifier is malformed answers 400 with the same
    body whatever the request, and leaves the world as it was: the body is
    not read, nothing is validated and no round trip is made.  Two such
    requests that differ in their bodies get the same answer. *)
Theorem C4_PUT_malformed_id_ignores_body
    (isUrl : string -> bool) (id : string) (w : world) :
  ObjectId.isValid id = false ->
  (forall req,
     ProductByIdRoute.PUT isUrl req id w
     = (Returned (NextResponse_json (error_body "Invalid ID format") 400), w))
  /\ (forall req req',
        ProductByIdRoute.PUT isUrl req id w = ProductByIdRoute.PUT isUrl req' id w).
Proof.
  intros H.
  assert (H1 : forall req,
             ProductByIdRoute.PUT isUrl req id w
             = (Returned (NextResponse_json (error_body "Invalid ID format") 400), w)).
  { intros req. unfold ProductByIdRoute.PUT. rewrite H. reflexivity. }
  split; [exact H1 |].
  intros req req'. rewrite (H1 req), (H1 req'). reflexivity.
Qed.

Lemma C4_PUT_malformed_id_witness :
  ObjectId.isValid "abc" = false
  /\ ProductByIdRoute.PUT sample_isUrl (mkRequest [] (NotJson "{")) "abc" (fresh_world healthy)
     = ProductByIdRoute.PUT sample_isUrl (mkRequest [] (Json iphone)) "abc" (fresh_world healthy).
Proof.
  split; [reflexivity |].
  apply (C4_PUT_malformed_id_ignores_body sample_isUrl "abc" (fresh_world healthy)).
  reflexivity.
Defined.

(** ** Bodies that are not JSON *)

(** C10 (as amended).  A POST request, and a PUT request whose identifier
    is well formed, whose body is not parseable JSON is answered 500 with
    the handler's generic error object: the parse failure is caught by the
    generic catch branch, after the body was read and before any round
    trip. *)
Theorem C10_unparseable_body_is_500
    (isUrl : string -> bool) (req : request) (w : world) (text : string) :
  body req = NotJson text ->
  (responded (ProductsRoute.POST isUrl req w)
   = Some (NextResponse_json (error_body "Failed to create product") 500)
   /\ trace (world_after (ProductsRoute.POST isUrl req w)) = trace w ++ [ReadBody])
  /\ (forall id,
        ObjectId.isValid id = true ->
        responded (ProductByIdRoute.PUT isUrl req id w)
        = Some (NextResponse_json (error_body "Internal server error") 500)
        /\ trace (world_after (ProductByIdRoute.PUT isUrl req id w))
           = trace w ++ [ReadBody]).
Proof.
  intros H. split.
  - unfold ProductsRoute.POST, try_catch, bind at 1, req_json, bind, emit.
    rewrite H. split; reflexivity.
  - intros id Hid. unfold ProductByIdRoute.PUT. rewrite Hid. simpl.
    unfold try_catch, bind at 1, req_json, bind, emit.
    rewrite H. split; reflexivity.
Qed.

Lemma C10_unparseable_body_witness :
  body (mkRequest [] (NotJson "{")) = NotJson "{"
  /\ ObjectId.isValid a_well_formed_id = true
  /\ responded (ProductsRoute.POST sample_isUrl (mkRequest [] (NotJson "{"))
                  (fresh_world healthy))
     = Some (NextResponse_json (error_body "Failed to create product") 500)
  /\ responded (ProductByIdRoute.PUT sample_isUrl (mkRequest [] (NotJson "{"))
                  a_well_formed_id (fresh_world healthy))
     = Some (NextResponse_json (error_body "Internal server error") 500).
Proof.
  pose proof (C10_unparseable_body_is_500 sample_isUrl (mkRequest [] (NotJson "{"))
                (fresh_world healthy) "{" eq_refl) as [[H1 _] H2].
  destruct (H2 a_well_formed_id eq_refl) as [H3 _].
  repeat split; assumption.
Defined.

(** C10, the sentence as the specification has it, fails on a PUT whose
    identifier is malformed: the answer is 400 and the body is never
    parsed.  This holds whatever the URL parser. *)
Lemma C10_malformed_id_counterexample :
  ~ (exists isUrl,
       unparseable_body_gives_500 isUrl (mkRequest [] (NotJson "{")) "abc"
         (fresh_world healthy)).
Proof.
  intros [isUrl H].
  destruct H as [_ H]; [exists "{"; reflexivity |].
  discriminate H.
Qed.

(** ** Error responses *)

(** C6, evaluated.  When the listing of all products fails at the store,
    the 500 body of GET /products carries the enumerable properties of the
    driver's error next to the generic message, so two different failures
    give two different bodies; the dashboard listing, on the same failures,
    answers with the generic message alone. *)
Theorem C6_GET_products_exposes_error_detail :
  responded (ProductsRoute.GET (fresh_world (fails_at 1 unauthorized)))
  = Some (NextResponse_json
            (JObj [("error", JStr "Failed to retrieve products");
                   ("details", JObj [("ok", JNum 0%Q); ("code", JNum 13%Q);
                                     ("codeName", JStr "Unauthorized")])])
            500)
  /\ responded (ProductsRoute.GET (fresh_world (fails_at 1 interrupted)))
     = Some (NextResponse_json
               (JObj [("error", JStr "Failed to retrieve products");
                      ("details", JObj [("ok", JNum 0%Q); ("code", JNum 11601%Q);
                                        ("codeName", JStr "Interrupted")])])
               500)
  /\ responded (DashboardRoute.GET (mkRequest [] (Json JNull))
                  (fresh_world (fails_at 1 unauthorized)))
     = Some (NextResponse_json (error_body "Failed to fetch products") 500)
  /\ responded (DashboardRoute.GET (mkRequest [] (Json JNull))
                  (fresh_world (fails_at 1 interrupted)))
     = Some (NextResponse_json (error_body "Failed to fetch products") 500).
Proof. repeat split. Qed.

(** Whatever the store's failure, the 500 body of GET /products is the
    generic message together with the serialised error. *)
Lemma GET_products_500_body (w : world) (r : response) :
  responded (ProductsRoute.GET w) = Some r ->
  status r = 500 ->
  exists e, response_body r
            = JObj [("error", JStr "Failed to retrieve products");
                    ("details", error_to_json e)].
Proof.
  unfold ProductsRoute.GET, try_catch, bind at 1.
  destruct (connectToDB_outcome w)
    as [[w' [E [Hc _]]] | [w' [f [E _]]]]; rewrite E.
  - unfold bind. rewrite (find_connected [] w' Hc).
    destruct (faults w' (length (trace w'))) as [f |].
    + intros [= <-] _. exists (DriverError f). reflexivity.
    + intros [= <-]. discriminate.
  - intros [= <-] _. exists (Error "Failed to connect to mongoDb"). reflexivity.
Qed.

(** ** The validation envelope *)

Section Envelopes.
Variable isUrl : string -> bool.

(** What POST and PUT answer to a body that decodes and fails the schema. *)
Lemma POST_validation_failure (req : request) (w : world) (payload : jsvalue)
    (issues : list Zod.issue) :
  body req = Json payload ->
  Zod.safeParse isUrl productSchema payload = Zod.ParseFailure issues ->
  responded (ProductsRoute.POST isUrl req w)
  = Some (NextResponse_json
            (JObj [("errors", JArr (map ProductsRoute.field_error issues))]) 400).
Proof.
  intros Hb Hp.
  unfold ProductsRoute.POST, try_catch, bind at 1, req_json, bind, emit.
  rewrite Hb. simpl. rewrite Hp. reflexivity.
Qed.

Lemma PUT_validation_failure (req : request) (id : string) (w : world)
    (payload : jsvalue) (issues : list Zod.issue) :
  ObjectId.isValid id = true ->
  body req = Json payload ->
  Zod.safeParse isUrl productSchema payload = Zod.ParseFailure issues ->
  responded (ProductByIdRoute.PUT isUrl req id w)
  = Some (NextResponse_json
            (JObj [("error", JArr (map Zod.issue_to_json issues))]) 400).
Proof.
  intros Hid Hb Hp.
  unfold ProductByIdRoute.PUT. rewrite Hid. simpl.
  unfold try_catch, bind at 1, req_json, bind, emit.
  rewrite Hb. simpl. rewrite Hp. reflexivity.
Qed.

(** PUT's body for a schema failure is neither of the documented
    envelopes: its [error] is the array of issues, not a string. *)
Lemma PUT_validation_body_undocumented (issues : list Zod.issue) :
  documented_envelope (JObj [("error", JArr (map Zod.issue_to_json issues))]) = false.
Proof. reflexivity. Qed.

(** POST's body for an object payload that fails the schema is the
    [errors] envelope. *)
Lemma POST_validation_body_documented (props : list (string * jsvalue)) :
  documented_envelope
    (JObj [("errors",
            JArr (map ProductsRoute.field_error
                    (Zod.parse_shape isUrl productSchema props)))]) = true.
Proof.
  change (forallb is_field_error
            (map ProductsRoute.field_error
               (Zod.parse_shape isUrl productSchema props)) = true).
  rewrite forallb_forall. intros item. rewrite in_map_iff.
  intros [i [<- Hi]].
  rewrite issues_of_object, !in_app_iff in Hi.
  unfold ProductsRoute.field_error.
  repeat match type of Hi with
         | _ \/ _ => destruct Hi as [Hi | Hi]
         end;
    apply parse_value_path in Hi; rewrite Hi; reflexivity.
Qed.

End Envelopes.

(** C8, evaluated.  A PUT with a well-formed identifier and a body that
    fails the schema is answered 400 with a body that is neither
    [{ error: string }] nor [{ errors: [{field, message}, ...] }]: its
    [error] property holds the array of raw issues.  POST answers the same
    payload with the [errors] envelope; on a payload that is not an object
    its single item has a message and no field. *)
Theorem C8_validation_envelopes_evaluated :
  responded (ProductByIdRoute.PUT sample_isUrl
               (mkRequest [] (Json (JObj [("title", JStr "iphone 20")])))
               a_well_formed_id (fresh_world healthy))
  = Some (NextResponse_json
            (JObj [("error",
                    JArr (map Zod.issue_to_json
                            (issues_of sample_isUrl (JObj [("title", JStr "iphone 20")]))))])
            400)
  /\ length (issues_of sample_isUrl (JObj [("title", JStr "iphone 20")])) = 5
  /\ option_map (fun r => documented_envelope (response_body r))
       (responded (ProductByIdRoute.PUT sample_isUrl
                     (mkRequest [] (Json (JObj [("title", JStr "iphone 20")])))
                     a_well_formed_id (fresh_world healthy)))
     = Some false
  /\ option_map (fun r => documented_envelope (response_body r))
       (responded (ProductsRoute.POST sample_isUrl
                     (mkRequest [] (Json (JObj [("title", JStr "iphone 20")])))
                     (fresh_world healthy)))
     = Some true
  /\ responded (ProductsRoute.POST sample_isUrl (mkRequest [] (Json JNull))
                  (fresh_world healthy))
     = Some (NextResponse_json
               (JObj [("errors",
                       JArr [JObj [("message", JStr "Expected object, received null")]])])
               400).
Proof. repeat split. Qed.

(** ** Idempotence of the connection helper *)

Lemma connect_times_connected (n : nat) (w : world) :
  connected w = true ->
  fst (connect_times n w) = 0
  /\ connected (snd (connect_times n w)) = true
  /\ trace (snd (connect_times n w)) = trace w.
Proof.
  revert w. induction n as [| n IH]; intros w H.
  - repeat split. exact H.
  - cbn [connect_times]. rewrite (connectToDB_connected w H). cbn [fst snd].
    rewrite H. cbn [negb andb Nat.add].
    apply (IH (mkWorld true (collection w) (next_id w) (faults w) (trace w)
                       (console w ++ [log_info "connected to MongoDB"]))).
    reflexivity.
Qed.

Lemma connect_times_at_most_once (n : nat) (w : world) :
  fst (connect_times n w) <= 1.
Proof.
  revert w. induction n as [| n IH]; intros w.
  - simpl. lia.
  - destruct (connected w) eqn:H.
    + destruct (connect_times_connected (S n) w H) as [E _]. rewrite E. lia.
    + cbn [connect_times]. rewrite H. cbn [negb andb].
      destruct (faults w (length (trace w))) as [f |] eqn:F.
      * rewrite (connectToDB_fails w f H F). cbn [fst snd]. apply IH.
      * rewrite (connectToDB_dials w H F). cbn [fst snd].
        match goal with
        | |- context [connect_times n ?w'] =>
            destruct (connect_times_connected n w' eq_refl) as [E _]
        end.
        rewrite E. simpl. lia.
Qed.

(** C7.  With the connection open, a call of [connectToDB] returns without
    a round trip: the trace, the connection and the collection are as they
    were, and no dial is added.  Hence in every sequence of calls, from any
    state of the process, at most one call takes the connection from closed
    to open. *)
Theorem C7_connectToDB_idempotent (w : world) (n : nat) :
  (connected w = true ->
   exists w', connectToDB w = (Returned tt, w')
              /\ trace w' = trace w
              /\ dials (trace w') = dials (trace w)
              /\ connected w' = true
              /\ collection w' = collection w
              /\ fst (connect_times n w) = 0)
  /\ fst (connect_times n w) <= 1.
Proof.
  split; [| apply connect_times_at_most_once].
  intros H. eexists. rewrite (connectToDB_connected w H). repeat split.
  apply (connect_times_connected n w H).
Qed.

Lemma C7_connectToDB_idempotent_witness :
  let w := world_after (connectToDB (fresh_world healthy)) in
  connected w = true
  /\ trace w = [Dial]
  /\ trace (world_after (connectToDB w)) = [Dial]
  /\ fst (connect_times 5 (fresh_world healthy)) <= 1.
Proof.
  intros w.
  destruct (C7_connectToDB_idempotent w 5) as [H _].
  destruct (H eq_refl) as [w' [E [Ht _]]].
  destruct (C7_connectToDB_idempotent (fresh_world healthy) 5) as [_ H5].
  repeat split; assumption || reflexivity.
Defined.

Example five_calls_one_dial :
  fst (connect_times 5 (fresh_world healthy)) = 1
  /\ dials (trace (snd (connect_times 5 (fresh_world healthy)))) = 1
  /\ fst (connect_times 5 (fresh_world (fails_at 0 connection_refused))) = 1
  /\ dials (trace (snd (connect_times 5 (fresh_world (fails_at 0 connection_refused))))) = 2.
Proof. repeat split. Qed.

(** ** Validation before persistence *)

Section Persistence.
Variable isUrl : string -> bool.

Lemma get_prop_strip (k : string) (sh : Zod.shape) (props : list (string * jsvalue)) :
  get_prop k (Zod.strip sh props)
  = if Zod.mem_string k (map fst sh) then get_prop k props else None.
Proof.
  induction sh as [| [k' sch] rest IH]; [reflexivity |].
  cbn [Zod.strip map fst Zod.mem_string].
  destruct (get_prop k' props) as [v |] eqn:E.
  - cbn [get_prop]. destruct (String.eqb k k') eqn:Ek; cbn [orb]; [| exact IH].
    apply String.eqb_eq in Ek. subst k'. symmetry. exact E.
  - rewrite IH. destruct (String.eqb k k') eqn:Ek; cbn [orb]; [| reflexivity].
    apply String.eqb_eq in Ek. subst k'. rewrite E.
    destruct (Zod.mem_string k (map fst rest)); reflexivity.
Qed.

Lemma forallb_agree {A} (f g : A -> bool) (l : list A) :
  (forall x, In x l -> f x = g x) -> forallb f l = forallb g l.
Proof.
  induction l as [| x l IH]; intros H; [reflexivity |].
  simpl. rewrite (H x (or_introl eq_refl)), IH; [reflexivity |].
  intros y Hy. apply H. right. exact Hy.
Qed.

(** The verdict of the validator on an object reads its six fields and
    nothing else. *)
Lemma acceptable_ext (p1 p2 : list (string * jsvalue)) :
  (forall k, In k Spec.field_names -> get_prop k p1 = get_prop k p2) ->
  accepts isUrl (JObj p1) = accepts isUrl (JObj p2).
Proof.
  intros H. rewrite !accepts_iff_acceptable.
  unfold Spec.acceptable. apply forallb_agree.
  intros k Hk. unfold Spec.satisfies, prop. rewrite (H k Hk). reflexivity.
Qed.

(** The data of a successful parse: the payload is an object, the data is
    the payload stripped to the six fields, and it passes the validator
    again. *)
Lemma safeParse_success (payload data : jsvalue) :
  Zod.safeParse isUrl productSchema payload = Zod.ParseSuccess data ->
  accepts isUrl payload = true
  /\ accepts isUrl data = true
  /\ exists props, payload = JObj props
                   /\ data = JObj (Zod.strip productSchema props).
Proof.
  intros H.
  assert (Ha : accepts isUrl payload = true) by (unfold accepts; rewrite H; reflexivity).
  split; [exact Ha |].
  destruct payload as [ | b | x | s | items | props]; try discriminate H.
  unfold Zod.safeParse in H.
  destruct (Zod.parse_shape isUrl productSchema props); [| discriminate H].
  assert (Hd : data = JObj (Zod.strip productSchema props)) by congruence.
  subst data.
  split; [| exists props; split; reflexivity].
  transitivity (accepts isUrl (JObj props)); [| exact Ha]. apply acceptable_ext.
  intros k Hk. rewrite get_prop_strip.
  simpl in Hk.
  destruct Hk as [<- | [<- | [<- | [<- | [<- | [<- | []]]]]]]; reflexivity.
Qed.

(** The document POST builds from validated data has the data's value at
    each of the six fields. *)
Lemma new_product_fields (id : jsvalue) (data : list (string * jsvalue)) (k : string) :
  In k Spec.field_names ->
  get_prop k
    (("_id", id)
       :: obj [("title", get_prop "title" data);
               ("description", get_prop "description" data);
               ("category", get_prop "category" data);
               ("imageUrl", get_prop "imageUrl" data);
               ("creator", get_prop "creator" data);
               ("price", get_prop "price" data)])
  = get_prop k data.
Proof.
  intros Hk. simpl in Hk.
  destruct (get_prop "title" data) eqn:E1;
    destruct (get_prop "description" data) eqn:E2;
    destruct (get_prop "category" data) eqn:E3;
    destruct (get_prop "imageUrl" data) eqn:E4;
    destruct (get_prop "creator" data) eqn:E5;
    destruct (get_prop "price" data) eqn:E6;
    destruct Hk as [<- | [<- | [<- | [<- | [<- | [<- | []]]]]]];
    cbn; congruence.
Qed.

Lemma get_prop_set_prop (k k' : string) (v : jsvalue) (props : list (string * jsvalue)) :
  get_prop k (Product.set_prop k' v props)
  = if String.eqb k k' then Some v else get_prop k props.
Proof.
  induction props as [| [k0 v0] rest IH]; simpl.
  - destruct (String.eqb k k'); reflexivity.
  - destruct (String.eqb k' k0) eqn:E0; simpl.
    + apply String.eqb_eq in E0. subst k0.
      destruct (String.eqb k k'); reflexivity.
    + destruct (String.eqb k k0) eqn:E1.
      * apply String.eqb_eq in E1. subst k0.
        rewrite String.eqb_sym, E0. reflexivity.
      * exact IH.
Qed.

(** Validated data binds each of the six fields, in the order of the
    schema. *)
Lemma strip_accepted (props : list (string * jsvalue)) :
  accepts isUrl (JObj props) = true ->
  exists t d c i p cr,
    Zod.strip productSchema props
    = [("title", t); ("description", d); ("category", c);
       ("imageUrl", i); ("price", p); ("creator", cr)].
Proof.
  rewrite accepts_iff_acceptable. unfold Spec.acceptable.
  cbn [forallb Spec.field_names]. rewrite !andb_true_iff.
  unfold Spec.satisfies, prop.
  intros (H1 & H2 & H3 & H4 & H5 & H6 & _).
  unfold productSchema. cbn [Zod.strip].
  destruct (get_prop "title" props); [| discriminate H1].
  destruct (get_prop "description" props); [| discriminate H2].
  destruct (get_prop "category" props); [| discriminate H3].
  destruct (get_prop "imageUrl" props); [| discriminate H4].
  destruct (get_prop "price" props); [| discriminate H5].
  destruct (get_prop "creator" props); [| discriminate H6].
  do 6 eexists. reflexivity.
Qed.

(** An update with validated data leaves a document that passes the
    validator, whatever the document was before. *)
Lemma assign_accepted (props : list (string * jsvalue)) (doc : document) :
  accepts isUrl (JObj props) = true ->
  accepts isUrl (JObj (Product.assign (Zod.strip productSchema props) doc)) = true.
Proof.
  intros H.
  assert (Hs : accepts isUrl (JObj (Zod.strip productSchema props)) = true).
  { transitivity (accepts isUrl (JObj props)); [| exact H].
    apply acceptable_ext. intros k Hk. rewrite get_prop_strip.
    simpl in Hk.
    destruct Hk as [<- | [<- | [<- | [<- | [<- | [<- | []]]]]]]; reflexivity. }
  transitivity (accepts isUrl (JObj (Zod.strip productSchema props))); [| exact Hs].
  apply acceptable_ext.
  destruct (strip_accepted props H) as (t & d & c & i & p & cr & ->).
  unfold Product.assign. cbn [fold_left fst snd].
  intros k Hk. rewrite !get_prop_set_prop.
  simpl in Hk.
  destruct Hk as [<- | [<- | [<- | [<- | [<- | [<- | []]]]]]]; reflexivity.
Qed.

Lemma In_replace_first (p : document -> bool) (d' d : document) (docs : list document) :
  In d (Product.replace_first p d' docs) -> In d docs \/ d = d'.
Proof.
  induction docs as [| d0 docs IH]; simpl; [tauto |].
  destruct (p d0); simpl.
  - intros [<- | H]; tauto.
  - intros [<- | H]; [tauto |]. destruct (IH H); tauto.
Qed.

End Persistence.

Lemma save_connected (doc : document) (w : world) :
  connected w = true ->
  Product.save doc w
  = match faults w (length (trace w)) with
    | None =>
        (Returned tt,
         mkWorld true (collection w ++ [doc]) (next_id w) (faults w)
                 (trace w ++ [Save doc]) (console w))
    | Some f =>
        (Threw (DriverError f),
         mkWorld true (collection w) (next_id w) (faults w)
                 (trace w ++ [Save doc]) (console w))
    end.
Proof.
  intros H. unfold Product.save, with_connection, bind, is_connected, round_trip.
  rewrite H. simpl. destruct (faults w (length (trace w))); simpl; rewrite H; reflexivity.
Qed.

Lemma findByIdAndUpdate_connected (id : string) (update : jsvalue) (w : world) :
  connected w = true ->
  Product.findByIdAndUpdate id update w
  = match faults w (length (trace w)) with
    | None =>
        match find (Product.has_id id) (collection w) with
        | None =>
            (Returned None,
             mkWorld true (collection w) (next_id w) (faults w)
                     (trace w ++ [FindByIdAndUpdate id update]) (console w))
        | Some doc =>
            (Returned (Some (Product.assign (Product.props_of update) doc)),
             mkWorld true
                     (Product.replace_first (Product.has_id id)
                        (Product.assign (Product.props_of update) doc) (collection w))
                     (next_id w) (faults w)
                     (trace w ++ [FindByIdAndUpdate id update]) (console w))
        end
    | Some f =>
        (Threw (DriverError f),
         mkWorld true (collection w) (next_id w) (faults w)
                 (trace w ++ [FindByIdAndUpdate id update]) (console w))
    end.
Proof.
  intros H.
  unfold Product.findByIdAndUpdate, with_connection, bind, is_connected, round_trip.
  rewrite H. simpl. destruct (faults w (length (trace w))); simpl; [rewrite H; reflexivity |].
  destruct (find (Product.has_id id) (collection w)); simpl; rewrite H; reflexivity.
Qed.

Section WriteHandlers.
Variable isUrl : string -> bool.

(** Effects that write nothing. *)
Lemma validated_writes_none (req : request) (w w' : world) (es : list effect) :
  trace w' = trace w ++ es ->
  Forall (fun e => written e = None) es ->
  collection w' = collection w ->
  validated_writes isUrl req w w'.
Proof.
  intros Ht Hes Hc. split.
  - exists es. split; [exact Ht |]. intros e v He Hv.
    rewrite Forall_forall in Hes. rewrite (Hes e He) in Hv. discriminate Hv.
  - intros d Hd. left. rewrite <- Hc. exact Hd.
Qed.

Lemma POST_validated_writes (req : request) (w : world) :
  validated_writes isUrl req w (world_after (ProductsRoute.POST isUrl req w)).
Proof.
  unfold ProductsRoute.POST, world_after, try_catch, bind at 1, req_json, bind at 1, emit.
  destruct (body req) as [payload | text] eqn:Hb.
  2:{ apply (validated_writes_none _ _ _ [ReadBody]); repeat constructor. }
  cbn [ret].
  destruct (Zod.safeParse isUrl productSchema payload) as [data | issues] eqn:Hp.
  2:{ apply (validated_writes_none _ _ _ [ReadBody]); repeat constructor. }
  destruct (safeParse_success isUrl payload data Hp) as [Ha [Hda [props [-> ->]]]].
  unfold bind at 1.
  match goal with
  | |- context [connectToDB ?w1] =>
      destruct (connectToDB_outcome w1)
        as [[w2 [E [Hc [Hd [_ [_ Ht]]]]]] | [w2 [f [E [_ [_ [_ [Hd Ht]]]]]]]];
      rewrite E; cbn [collection trace connected] in *
  end.
  2:{ apply (validated_writes_none _ _ _ [ReadBody; Dial]).
      - cbn. rewrite Ht, <- app_assoc. reflexivity.
      - repeat constructor.
      - cbn. exact Hd. }
  unfold bind at 1, Product.new, bind at 1, bump_id. cbn [ret].
  unfold bind at 1. rewrite save_connected by exact Hc.
  cbn [connected collection next_id faults trace console].
  unfold prop.
  match goal with
  | |- context [Save ?doc] => set (newProduct := doc)
  end.
  assert (Hn : accepts isUrl (JObj newProduct) = true).
  { transitivity (accepts isUrl (JObj (Zod.strip productSchema props))); [| exact Hda].
    apply acceptable_ext. intros k Hk. apply new_product_fields. exact Hk. }
  assert (Hw : forall pre e v,
             In e (pre ++ [Save newProduct]) ->
             Forall (fun e => written e = None) pre ->
             written e = Some v ->
             accepts isUrl v = true
             /\ exists payload, body req = Json payload
                                /\ accepts isUrl payload = true).
  { intros pre e v He Hpre Hv. apply in_app_or in He. destruct He as [He | [<- | []]].
    - rewrite Forall_forall in Hpre. rewrite (Hpre e He) in Hv. discriminate Hv.
    - injection Hv as <-. split; [exact Hn |]. exists (JObj props). split; [exact Hb | exact Ha]. }
  destruct (faults w2 (length (trace w2))) as [f |]; cbn;
    (split;
     [ destruct Ht as [Ht | [_ Ht]]; rewrite Ht;
       [ exists ([ReadBody] ++ [Save newProduct]) | exists ([ReadBody; Dial] ++ [Save newProduct]) ];
       (split; [ rewrite <- !app_assoc; reflexivity
               | intros e v He Hv; apply (Hw _ e v He); [repeat constructor | exact Hv] ])
     | intros d Hdoc; rewrite Hd in Hdoc;
       try (apply in_app_or in Hdoc; destruct Hdoc as [Hdoc | [<- | []]]);
       [ left; exact Hdoc | .. ]; try (right; exact Hn) ]).
Qed.

Lemma PUT_validated_writes (req : request) (id : string) (w : world) :
  validated_writes isUrl req w (world_after (ProductByIdRoute.PUT isUrl req id w)).
Proof.
  unfold ProductByIdRoute.PUT.
  destruct (ObjectId.isValid id); cbn [negb].
  2:{ apply (validated_writes_none _ _ _ []); [symmetry; apply app_nil_r | constructor | reflexivity]. }
  unfold world_after, try_catch, bind at 1, req_json, bind at 1, emit.
  destruct (body req) as [payload | text] eqn:Hb.
  2:{ apply (validated_writes_none _ _ _ [ReadBody]); repeat constructor. }
  cbn [ret].
  destruct (Zod.safeParse isUrl productSchema payload) as [data | issues] eqn:Hp.
  2:{ apply (validated_writes_none _ _ _ [ReadBody]); repeat constructor. }
  destruct (safeParse_success isUrl payload data Hp) as [Ha [Hda [props [-> ->]]]].
  unfold bind at 1.
  match goal with
  | |- context [connectToDB ?w1] =>
      destruct (connectToDB_outcome w1)
        as [[w2 [E [Hc [Hd [_ [_ Ht]]]]]] | [w2 [f [E [_ [_ [_ [Hd Ht]]]]]]]];
      rewrite E; cbn [collection trace connected] in *
  end.
  2:{ apply (validated_writes_none _ _ _ [ReadBody; Dial]).
      - cbn. rewrite Ht, <- app_assoc. reflexivity.
      - repeat constructor.
      - cbn. exact Hd. }
  unfold bind at 1. rewrite findByIdAndUpdate_connected by exact Hc.
  set (data := JObj (Zod.strip productSchema props)) in *.
  assert (Hw : forall pre e v,
             In e (pre ++ [FindByIdAndUpdate id data]) ->
             Forall (fun e => written e = None) pre ->
             written e = Some v ->
             accepts isUrl v = true
             /\ exists payload, body req = Json payload
                                /\ accepts isUrl payload = true).
  { intros pre e v He Hpre Hv. apply in_app_or in He. destruct He as [He | [<- | []]].
    - rewrite Forall_forall in Hpre. rewrite (Hpre e He) in Hv. discriminate Hv.
    - injection Hv as <-. split; [exact Hda |]. exists (JObj props). split; [exact Hb | exact Ha]. }
  assert (Hes : forall w3,
             trace w3 = trace w2 ++ [FindByIdAndUpdate id data] ->
             exists es,
               trace w3 = trace w ++ es
               /\ forall e v, In e es -> written e = Some v ->
                    accepts isUrl v = true
                    /\ exists payload, body req = Json payload
                                       /\ accepts isUrl payload = true).
  { intros w3 H3. rewrite H3.
    destruct Ht as [Ht | [_ Ht]]; rewrite Ht;
      [ exists ([ReadBody] ++ [FindByIdAndUpdate id data])
      | exists ([ReadBody; Dial] ++ [FindByIdAndUpdate id data]) ];
      (split; [ rewrite <- !app_assoc; reflexivity
              | intros e v He Hv; apply (Hw _ e v He); [repeat constructor | exact Hv] ]). }
  destruct (faults w2 (length (trace w2))) as [f |].
  - split; [apply Hes; reflexivity |].
    intros d Hdoc. left. cbn in Hdoc. rewrite <- Hd. exact Hdoc.
  - destruct (find (Product.has_id id) (collection w2)) as [doc |].
    + split; [apply Hes; reflexivity |].
      intros d Hdoc. cbn in Hdoc.
      apply In_replace_first in Hdoc. destruct Hdoc as [Hdoc | ->].
      * left. rewrite <- Hd. exact Hdoc.
      * right. apply assign_accepted. exact Ha.
    + split; [apply Hes; reflexivity |].
      intros d Hdoc. left. cbn in Hdoc. rewrite <- Hd. exact Hdoc.
Qed.

End WriteHandlers.

(** C5.  In a run of POST or of PUT, every create or update that reaches
    the store carries data that passes the Schema Validator and comes
    after a request body that decoded and passed it; and every document
    of the collection after the run either was there before, unchanged, or
    passes the validator. *)
Theorem C5_validation_precedes_persistence
    (isUrl : string -> bool) (req : request) (id : string) (w : world) :
  validated_writes isUrl req w (world_after (ProductsRoute.POST isUrl req w))
  /\ validated_writes isUrl req w (world_after (ProductByIdRoute.PUT isUrl req id w)).
Proof.
  split; [apply POST_validated_writes | apply PUT_validated_writes].
Qed.

(** The concrete scenario of the specification: the iphone is created
    with one save of the validated fields; a payload with a price below 1
    is refused and nothing is written. *)
Example C5_create_scenario :
  let ok := ProductsRoute.POST sample_isUrl (mkRequest [] (Json iphone)) (fresh_world healthy) in
  let bad := ProductsRoute.POST sample_isUrl
               (mkRequest [] (Json (JObj [("title", JStr "x"); ("price", JNum 0%Q)])))
               (fresh_world healthy) in
  option_map status (responded ok) = Some 201
  /\ map written (trace (world_after ok))
     = [None; None; Some (JObj (hd [] (collection (world_after ok))))]
  /\ length (collection (world_after ok)) = 1
  /\ forallb (fun d => accepts sample_isUrl (JObj d)) (collection (world_after ok)) = true
  /\ option_map status (responded bad) = Some 400
  /\ trace (world_after bad) = [ReadBody]
  /\ collection (world_after bad) = [].
Proof. repeat split. Qed.

(** ** The other handlers keep their 500 bodies generic *)

Lemma never_500_ret (b : jsvalue) (st : nat) :
  st <> 500 -> never_500 (ret (NextResponse_json b st)).
Proof.
  intros H w r w' E. injection E as <- _. exact H.
Qed.

Lemma never_500_bind {A} (m : M A) (k : A -> M response) :
  (forall a, never_500 (k a)) -> never_500 (bind m k).
Proof.
  intros H w r w' E. unfold bind in E.
  destruct (m w) as [[a | e] w1]; [apply (H a w1 r w' E) | discriminate E].
Qed.

Lemma never_500_throw (e : exn) : never_500 (throw e).
Proof. intros w r w' E. discriminate E. Qed.

(** A handler whose catch branch logs and answers with a fixed message:
    its 500 responses all have that body. *)
Lemma generic_catch (body : M response) (label msg : string) (w : world) (r : response) :
  never_500 body ->
  responded
    (try_catch body
       (fun error =>
          call console_error label error;
          ret (NextResponse_json (error_body msg) 500)) w) = Some r ->
  status r = 500 ->
  response_body r = error_body msg.
Proof.
  intros Hb. unfold responded, try_catch.
  destruct (body w) as [[r' | e] w1] eqn:E; cbn.
  - intros [= <-] Hs. destruct (Hb w r' w1 E Hs).
  - intros [= <-] _. reflexivity.
Qed.

Ltac never_500_steps :=
  repeat first
    [ apply never_500_ret; discriminate
    | apply never_500_throw
    | apply never_500_bind; intros ?
    | match goal with
      | |- never_500 (let _ := _ in _) => cbv zeta
      | |- never_500 (match ?x with _ => _ end) => destruct x
      | |- never_500 (if ?b then _ else _) => destruct b
      end ].

(** Apart from GET /products, a 500 response carries the handler's fixed
    message and nothing of the error that caused it. *)
Lemma other_handlers_500_generic
    (isUrl : string -> bool) (req : request) (id : string) (w : world) (r : response) :
  status r = 500 ->
  (responded (DashboardRoute.GET req w) = Some r ->
   response_body r = error_body "Failed to fetch products")
  /\ (responded (ProductByIdRoute.GET id w) = Some r ->
      response_body r = error_body "Failed to fetch product")
  /\ (responded (ProductByIdRoute.PUT isUrl req id w) = Some r ->
      response_body r = error_body "Internal server error")
  /\ (responded (ProductByIdRoute.DELETE id w) = Some r ->
      response_body r = error_body "Internal server error")
  /\ (responded (ProductsRoute.POST isUrl req w) = Some r ->
      response_body r = error_body "Failed to create product").
Proof.
  intros Hs. repeat split.
  - intros H. eapply generic_catch; [| exact H | exact Hs]; never_500_steps.
  - intros H. eapply generic_catch; [| exact H | exact Hs]; never_500_steps.
  - unfold ProductByIdRoute.PUT. destruct (ObjectId.isValid id); cbn [negb].
    + intros H. eapply generic_catch; [| exact H | exact Hs]; never_500_steps.
    + intros [= <-]. discriminate Hs.
  - unfold ProductByIdRoute.DELETE. destruct (String.eqb id "").
    + intros [= <-]. discriminate Hs.
    + intros H. eapply generic_catch; [| exact H | exact Hs]; never_500_steps.
  - unfold ProductsRoute.POST, responded, try_catch.
    match goal with
    | |- context [bind ?m ?k w] =>
        assert (Hb : never_500 (bind m k)) by never_500_steps;
        destruct (bind m k w) as [[r' | e] w1] eqn:E
    end.
    + cbn. intros [= <-]. destruct (Hb w r' w1 E Hs).
    + destruct e as [m | m | m | f | [| i issues]]; cbn;
        intros [= <-]; try reflexivity; discriminate Hs.
Qed.

(** ** The properties at concrete inputs *)

Lemma C1_validator_witness :
  let payload := JObj [("title", JStr "t"); ("imageUrl", JStr "")] in
  errors_naming "title" (issues_of sample_isUrl payload) = 0
  /\ errors_naming "price" (issues_of sample_isUrl payload) = 1
  /\ 1 <= errors_naming "imageUrl" (issues_of sample_isUrl payload) <= 2.
Proof.
  intros payload.
  destruct (C1_validator_accepts_and_reports sample_isUrl payload) as [_ [H _]].
  split; [| split].
  - apply (H "title"); [simpl; tauto | reflexivity].
  - apply (H "price"); [simpl; tauto | reflexivity].
  - apply (H "imageUrl"); [simpl; tauto | reflexivity].
Defined.

Lemma C2_dashboard_witness :
  DashboardRoute.GET (mkRequest [("creator", "")] (Json JNull)) (fresh_world healthy)
  = (Returned (NextResponse_json (error_body "Creator is required") 400),
     fresh_world healthy).
Proof.
  exact (C2_dashboard_by_creator (mkRequest [("creator", "")] (Json JNull))
           (fresh_world healthy)).
Defined.

Lemma C5_validation_witness :
  validated_writes sample_isUrl (mkRequest [] (Json iphone)) (fresh_world healthy)
    (world_after (ProductsRoute.POST sample_isUrl (mkRequest [] (Json iphone))
                    (fresh_world healthy))).
Proof.
  exact (proj1 (C5_validation_precedes_persistence sample_isUrl
                  (mkRequest [] (Json iphone)) a_well_formed_id (fresh_world healthy))).
Defined.

Lemma C9_isValid_witness :
  Spec.well_formed_id a_well_formed_id /\ ~ Spec.well_formed_id "abc".
Proof.
  split.
  - apply (C9_isValid_iff_24_hex a_well_formed_id). reflexivity.
  - apply (C9_isValid_iff_24_hex "abc"). reflexivity.
Defined.

(** * Further properties of the handlers *)

(** ** Outcomes of computations *)

Lemma ends_with_ret {A} (P : A -> Prop) (Q : exn -> Prop) (a : A) :
  P a -> ends_with P Q (ret a).
Proof. intros H w. exact H. Qed.

Lemma ends_with_throw {A} (P : A -> Prop) (Q : exn -> Prop) (e : exn) :
  Q e -> ends_with P Q (@throw A e).
Proof. intros H w. exact H. Qed.

Lemma ends_with_bind {A B} (P1 : A -> Prop) (P : B -> Prop) (Q : exn -> Prop)
    (m : M A) (k : A -> M B) :
  ends_with P1 Q m ->
  (forall a, P1 a -> ends_with P Q (k a)) ->
  ends_with P Q (bind m k).
Proof.
  intros Hm Hk w. unfold bind. specialize (Hm w).
  destruct (m w) as [[a | e] w1]; cbn in *.
  - apply (Hk a Hm w1).
  - exact Hm.
Qed.

Lemma ends_with_try_catch {A} (P : A -> Prop) (Q1 Q : exn -> Prop)
    (body : M A) (handler : exn -> M A) :
  ends_with P Q1 body ->
  (forall e, Q1 e -> ends_with P Q (handler e)) ->
  ends_with P Q (try_catch body handler).
Proof.
  intros Hb Hh w. unfold try_catch. specialize (Hb w).
  destruct (body w) as [[a | e] w1]; cbn in *.
  - exact Hb.
  - apply (Hh e Hb w1).
Qed.

Lemma ends_with_weaken {A} (P P' : A -> Prop) (Q Q' : exn -> Prop) (m : M A) :
  ends_with P Q m ->
  (forall a, P a -> P' a) -> (forall e, Q e -> Q' e) ->
  ends_with P' Q' m.
Proof.
  intros H HP HQ w. specialize (H w).
  destruct (fst (m w)); [apply HP | apply HQ]; exact H.
Qed.

(** The primitives. *)
Lemma console_error_ends (label : string) (e : exn) :
  ends_with anything nothing (console_error label e).
Proof. intros w. exact I. Qed.

Lemma req_json_ends (req : request) :
  ends_with anything is_syntax_error (req_json req).
Proof.
  intros w. unfold req_json, bind, emit. cbn.
  destruct (body req); cbn; [exact I | eexists; reflexivity].
Qed.

Lemma connectToDB_ends :
  ends_with anything (fun e => e = Error "Failed to connect to mongoDb") connectToDB.
Proof.
  intros w.
  destruct (connectToDB_outcome w) as [[w' [E _]] | [w' [f [E _]]]]; rewrite E.
  - exact I.
  - reflexivity.
Qed.

Lemma with_connection_ends {A} (name : string) (op : M A) :
  ends_with anything is_driver_error op ->
  ends_with anything is_driver_error (with_connection name op).
Proof.
  intros H w. unfold with_connection, bind, is_connected.
  destruct (connected w); cbn; [apply H | eexists; reflexivity].
Qed.

Lemma round_trip_ends (e : effect) :
  ends_with anything is_driver_error (round_trip e).
Proof.
  intros w. unfold round_trip.
  destruct (faults w (length (trace w))); cbn; [eexists; reflexivity | exact I].
Qed.

(** A repository operation is a round trip followed by steps that cannot
    fail. *)
Lemma repository_ends {A} (name : string) (e : effect) (k : M A) :
  ends_with anything nothing k ->
  ends_with anything is_driver_error
    (with_connection name (call round_trip e; k)).
Proof.
  intros H. apply with_connection_ends.
  apply (ends_with_bind anything); [apply round_trip_ends |].
  intros _ _. apply (ends_with_weaken _ _ _ _ _ H); [tauto | intros e' []].
Qed.

Lemma find_ends (filter : list (string * string)) :
  ends_with anything is_driver_error (Product.find filter).
Proof. apply repository_ends. intros w. exact I. Qed.

Lemma findById_ends (id : string) :
  ends_with anything is_driver_error (Product.findById id).
Proof. apply repository_ends. intros w. exact I. Qed.

Lemma save_ends (doc : document) :
  ends_with anything is_driver_error (Product.save doc).
Proof. apply repository_ends. intros w. exact I. Qed.

Lemma findByIdAndUpdate_ends (id : string) (update : jsvalue) :
  ends_with anything is_driver_error (Product.findByIdAndUpdate id update).
Proof.
  apply repository_ends. intros w. unfold bind, get_collection. cbn.
  destruct (find _ _); exact I.
Qed.

Lemma findByIdAndDelete_ends (id : string) :
  ends_with anything is_driver_error (Product.findByIdAndDelete id).
Proof.
  apply repository_ends. intros w. unfold bind, get_collection. cbn.
  destruct (find _ _); exact I.
Qed.

Lemma new_ends (fields : list (string * jsvalue)) :
  ends_with anything nothing (Product.new fields).
Proof. intros w. exact I. Qed.

Lemma ends_with_any {A} (m : M A) : ends_with anything anything m.
Proof. intros w. destruct (fst (m w)); exact I. Qed.

Lemma ends_with_responds {A} (P : A -> Prop) (m : M A) (w : world) :
  ends_with P nothing m -> exists a, responded (m w) = Some a /\ P a.
Proof.
  intros H. specialize (H w). unfold responded.
  destruct (fst (m w)) as [a | e]; [exists a; split; [reflexivity | exact H] | destruct H].
Qed.

(** A handler whose catch branch logs and answers 500. *)
Lemma catch_all_ends (codes : list nat) (body : M response) (label : string)
    (b : exn -> jsvalue) :
  In 500 codes ->
  ends_with (status_in codes) anything body ->
  ends_with (status_in codes) nothing
    (try_catch body
       (fun error => call console_error label error; ret (NextResponse_json (b error) 500))).
Proof.
  intros H5 Hb. apply (ends_with_try_catch _ anything); [exact Hb |].
  intros e _. apply (ends_with_bind anything); [apply console_error_ends |].
  intros _ _. apply ends_with_ret. exact H5.
Qed.

(** Steps of a handler body whose exceptions do not matter. *)
Ltac body_steps :=
  repeat first
    [ apply ends_with_ret; unfold status_in; simpl; tauto
    | apply (ends_with_bind anything); [apply ends_with_any | intros ? _]
    | match goal with
      | |- ends_with _ _ (let _ := _ in _) => cbv zeta
      | |- ends_with _ _ (match ?x with _ => _ end) => destruct x
      | |- ends_with _ _ (if ?b then _ else _) => destruct b
      end ].

Lemma GET_products_ends :
  ends_with (status_in [200; 500]) nothing ProductsRoute.GET.
Proof.
  unfold ProductsRoute.GET.
  refine (catch_all_ends _ _ _ _ _ _); [simpl; tauto | body_steps].
Qed.

Lemma dashboard_GET_ends (req : request) :
  ends_with (status_in [200; 400; 500]) nothing (DashboardRoute.GET req).
Proof.
  unfold DashboardRoute.GET.
  refine (catch_all_ends _ _ _ _ _ _); [simpl; tauto | body_steps].
Qed.

Lemma GET_by_id_ends (id : string) :
  ends_with (status_in [200; 400; 404; 500]) nothing (ProductByIdRoute.GET id).
Proof.
  unfold ProductByIdRoute.GET.
  refine (catch_all_ends _ _ _ _ _ _); [simpl; tauto | body_steps].
Qed.

Lemma DELETE_ends (id : string) :
  ends_with (status_in [200; 400; 404; 500]) nothing (ProductByIdRoute.DELETE id).
Proof.
  unfold ProductByIdRoute.DELETE. destruct (String.eqb id "").
  - apply ends_with_ret. unfold status_in. simpl. tauto.
  - refine (catch_all_ends _ _ _ _ _ _); [simpl; tauto | body_steps].
Qed.

Lemma PUT_ends (isUrl : string -> bool) (req : request) (id : string) :
  ends_with (status_in [200; 400; 404; 500]) nothing (ProductByIdRoute.PUT isUrl req id).
Proof.
  unfold ProductByIdRoute.PUT. destruct (ObjectId.isValid id); cbn [negb].
  - refine (catch_all_ends _ _ _ _ _ _); [simpl; tauto | body_steps].
  - apply ends_with_ret. unfold status_in. simpl. tauto.
Qed.

(** No step of POST's try block throws a [ZodError]: [safeParse] reports
    failures by value, so the first catch branch is never taken. *)
Lemma POST_ends (isUrl : string -> bool) (req : request) :
  ends_with (status_in [201; 400; 500]) nothing (ProductsRoute.POST isUrl req).
Proof.
  unfold ProductsRoute.POST.
  apply (ends_with_try_catch _ not_zod_error).
  - apply (ends_with_bind anything).
    { apply (ends_with_weaken _ _ _ _ _ (req_json_ends req)); [tauto |].
      intros e [msg ->] issues. discriminate. }
    intros payload _.
    destruct (Zod.safeParse isUrl productSchema payload) as [data | issues].
    + cbv zeta. apply (ends_with_bind anything).
      { apply (ends_with_weaken _ _ _ _ _ connectToDB_ends); [tauto |].
        intros e -> issues. discriminate. }
      intros _ _. apply (ends_with_bind anything).
      { apply (ends_with_weaken _ _ _ _ _ (new_ends _)); [tauto | intros e []]. }
      intros newProduct _. apply (ends_with_bind anything).
      { apply (ends_with_weaken _ _ _ _ _ (save_ends _)); [tauto |].
        intros e [f ->] issues. discriminate. }
      intros _ _. apply ends_with_ret. unfold status_in. simpl. tauto.
    + apply ends_with_ret. unfold status_in. simpl. tauto.
  - intros e He.
    destruct e as [m | m | m | f | issues]; try (destruct (He issues eq_refl));
      (apply (ends_with_bind anything); [apply console_error_ends |]);
      intros _ _; apply ends_with_ret; unfold status_in; simpl; tauto.
Qed.

(** X1.  No exception leaves a handler: from any world and on any request,
    each of the six handlers returns a response, and its status is one of
    the codes the handler's source writes: 200 or 500 for the listing;
    201, 400 or 500 for POST; 200, 400, 404 or 500 for GET, PUT and DELETE
    by identifier; 200, 400 or 500 for the dashboard. *)
Theorem X1_handlers_always_respond
    (isUrl : string -> bool) (req : request) (id : string) (w : world) :
  (exists r, responded (ProductsRoute.GET w) = Some r /\ In (status r) [200; 500])
  /\ (exists r, responded (ProductsRoute.POST isUrl req w) = Some r
                /\ In (status r) [201; 400; 500])
  /\ (exists r, responded (ProductByIdRoute.GET id w) = Some r
                /\ In (status r) [200; 400; 404; 500])
  /\ (exists r, responded (ProductByIdRoute.PUT isUrl req id w) = Some r
                /\ In (status r) [200; 400; 404; 500])
  /\ (exists r, responded (ProductByIdRoute.DELETE id w) = Some r
                /\ In (status r) [200; 400; 404; 500])
  /\ (exists r, responded (DashboardRoute.GET req w) = Some r
                /\ In (status r) [200; 400; 500]).
Proof.
  repeat split.
  - apply (ends_with_responds _ _ w GET_products_ends).
  - apply (ends_with_responds _ _ w (POST_ends isUrl req)).
  - apply (ends_with_responds _ _ w (GET_by_id_ends id)).
  - apply (ends_with_responds _ _ w (PUT_ends isUrl req id)).
  - apply (ends_with_responds _ _ w (DELETE_ends id)).
  - apply (ends_with_responds _ _ w (dashboard_GET_ends req)).
Qed.

(** ** What a run does to the world *)

Section Moves.
Variable R : world -> world -> Prop.
Hypothesis R_refl : forall w, R w w.
Hypothesis R_trans : forall w1 w2 w3, R w1 w2 -> R w2 w3 -> R w1 w3.

Lemma moves_ret {A} (a : A) : moves R (ret a).
Proof. intros w. apply R_refl. Qed.

Lemma moves_throw {A} (e : exn) : moves R (@throw A e).
Proof. intros w. apply R_refl. Qed.

Lemma moves_bind {A B} (m : M A) (k : A -> M B) :
  moves R m -> (forall a, moves R (k a)) -> moves R (bind m k).
Proof.
  intros Hm Hk w. unfold bind. specialize (Hm w).
  destruct (m w) as [[a | e] w1]; cbn in *.
  - apply (R_trans _ _ _ Hm). apply (Hk a w1).
  - exact Hm.
Qed.

Lemma moves_try_catch {A} (body : M A) (handler : exn -> M A) :
  moves R body -> (forall e, moves R (handler e)) -> moves R (try_catch body handler).
Proof.
  intros Hb Hh w. unfold try_catch. specialize (Hb w).
  destruct (body w) as [[a | e] w1]; cbn in *.
  - exact Hb.
  - apply (R_trans _ _ _ Hb). apply (Hh e w1).
Qed.

Lemma moves_with_connection {A} (name : string) (op : M A) :
  moves R op -> moves R (with_connection name op).
Proof.
  intros H w. unfold with_connection, bind, is_connected.
  destruct (connected w); cbn; [apply H | apply R_refl].
Qed.

End Moves.

Lemma only_read_refl (w : world) : only_read w w.
Proof.
  repeat split. exists []. split; [symmetry; apply app_nil_r | reflexivity].
Qed.

Lemma only_read_trans (w1 w2 w3 : world) :
  only_read w1 w2 -> only_read w2 w3 -> only_read w1 w3.
Proof.
  intros (Hc1 & Hn1 & Hf1 & es1 & Ht1 & He1) (Hc2 & Hn2 & Hf2 & es2 & Ht2 & He2).
  repeat split; try congruence.
  exists (es1 ++ es2). split.
  - rewrite Ht2, Ht1, app_assoc. reflexivity.
  - rewrite forallb_app, He1, He2. reflexivity.
Qed.

(** A step that touches the console alone, or adds one reading effect. *)
Lemma only_read_step (w w' : world) (es : list effect) :
  collection w' = collection w -> next_id w' = next_id w -> faults w' = faults w ->
  trace w' = trace w ++ es -> forallb reads_only es = true ->
  only_read w w'.
Proof. intros. repeat split; try assumption. exists es. split; assumption. Qed.

Lemma console_error_only_reads (label : string) (e : exn) :
  moves only_read (console_error label e).
Proof.
  intros w. apply (only_read_step _ _ []); try reflexivity. symmetry. apply app_nil_r.
Qed.

(** The three ways a call of [connectToDB] can go, with the world each
    leaves. *)
Lemma connectToDB_cases (w : world) :
  (connected w = true
   /\ connectToDB w
      = (Returned tt,
         mkWorld true (collection w) (next_id w) (faults w) (trace w)
                 (console w ++ [log_info "connected to MongoDB"])))
  \/ (connected w = false
      /\ faults w (length (trace w)) = None
      /\ connectToDB w
         = (Returned tt,
            mkWorld true (collection w) (next_id w) (faults w) (trace w ++ [Dial])
                    (console w ++ [log_info "connected to MongoDB"])))
  \/ (exists f,
        connected w = false
        /\ faults w (length (trace w)) = Some f
        /\ connectToDB w
           = (Threw (Error "Failed to connect to mongoDb"),
              mkWorld false (collection w) (next_id w) (faults w) (trace w ++ [Dial])
                      (console w ++ [log_error "Failed to connect to MongoDB:"
                                               (DriverError f)]))).
Proof.
  destruct (connected w) eqn:H.
  - left. split; [reflexivity | apply connectToDB_connected; exact H].
  - destruct (faults w (length (trace w))) as [f |] eqn:F.
    + right. right. exists f. repeat split. apply connectToDB_fails; assumption.
    + right. left. repeat split. apply connectToDB_dials; assumption.
Qed.

Lemma connectToDB_only_reads : moves only_read connectToDB.
Proof.
  intros w.
  destruct (connectToDB_cases w) as [[_ E] | [[_ [_ E]] | [f [_ [_ E]]]]]; rewrite E.
  - apply (only_read_step _ _ []); try reflexivity. symmetry. apply app_nil_r.
  - apply (only_read_step _ _ [Dial]); reflexivity.
  - apply (only_read_step _ _ [Dial]); reflexivity.
Qed.

Lemma read_trip_only_reads {A} (e : effect) (k : list document -> A) :
  reads_only e = true ->
  moves only_read (call round_trip e; await docs <- get_collection; ret (k docs)).
Proof.
  intros He w. unfold bind, round_trip, emit, get_collection, ret, throw.
  destruct (faults w (length (trace w))); cbn;
    apply (only_read_step _ _ [e]); cbn; try reflexivity; rewrite He; reflexivity.
Qed.

Lemma find_only_reads (filter : list (string * string)) :
  moves only_read (Product.find filter).
Proof.
  apply (moves_with_connection _ only_read_refl).
  apply (read_trip_only_reads (Find filter)). reflexivity.
Qed.

Lemma findById_only_reads (id : string) : moves only_read (Product.findById id).
Proof.
  apply (moves_with_connection _ only_read_refl).
  apply (read_trip_only_reads (FindById id)). reflexivity.
Qed.

Ltac only_read_steps :=
  repeat first
    [ apply (moves_ret _ only_read_refl)
    | apply connectToDB_only_reads
    | apply find_only_reads
    | apply findById_only_reads
    | apply console_error_only_reads
    | apply (moves_try_catch _ only_read_trans)
    | apply (moves_bind _ only_read_trans)
    | match goal with
      | |- forall _, _ => intro
      | |- moves _ (let _ := _ in _) => cbv zeta
      | |- moves _ (match ?x with _ => _ end) => destruct x
      | |- moves _ (if ?b then _ else _) => destruct b
      end ].

(** X2.  The three reading handlers never change the store: after the
    listing, the lookup by identifier and the dashboard listing, on any
    request and whatever fails, the collection and the identifier source
    are as before, and the effects added to the trace are dials and
    finds only. *)
Theorem X2_reading_handlers_only_read (req : request) (id : string) (w : world) :
  only_read w (world_after (ProductsRoute.GET w))
  /\ only_read w (world_after (ProductByIdRoute.GET id w))
  /\ only_read w (world_after (DashboardRoute.GET req w)).
Proof.
  split; [| split].
  - assert (H : moves only_read ProductsRoute.GET)
      by (unfold ProductsRoute.GET; only_read_steps).
    apply H.
  - assert (H : moves only_read (ProductByIdRoute.GET id))
      by (unfold ProductByIdRoute.GET; only_read_steps).
    apply H.
  - assert (H : moves only_read (DashboardRoute.GET req))
      by (unfold DashboardRoute.GET; only_read_steps).
    apply H.
Qed.

(** ** Reading handlers on a store that answers *)

(** With the store answering, [connectToDB] returns with the connection
    open and the rest of the world as it was. *)
Lemma connectToDB_healthy (w : world) :
  no_faults w ->
  exists w', connectToDB w = (Returned tt, w')
             /\ connected w' = true
             /\ collection w' = collection w
             /\ next_id w' = next_id w
             /\ no_faults w'.
Proof.
  intros Hn.
  destruct (connectToDB_cases w) as [[_ E] | [[_ [_ E]] | [f [_ [F _]]]]].
  - eexists. split; [exact E |]. repeat split. exact Hn.
  - eexists. split; [exact E |]. repeat split. exact Hn.
  - rewrite Hn in F. discriminate F.
Qed.

(** X3.  GET /products answers 200 with every document of the collection,
    in the order of the collection, and so with the empty array when
    there is no product; the only other answer is 500, and only when a
    round trip failed. *)
Theorem X3_GET_products_lists_collection (w : world) :
  exists r,
    responded (ProductsRoute.GET w) = Some r
    /\ ((status r = 200 /\ response_body r = JArr (map JObj (collection w)))
        \/ (status r = 500 /\ ~ no_faults w)).
Proof.
  unfold ProductsRoute.GET, try_catch, bind at 1.
  destruct (connectToDB_outcome w)
    as [[w' [E [Hc [Hd [_ [Hf _]]]]]] | [w' [f [E [_ [F _]]]]]]; rewrite E.
  - unfold bind. rewrite (find_connected [] w' Hc).
    destruct (faults w' (length (trace w'))) as [f |] eqn:F.
    + eexists. split; [reflexivity |]. right. split; [reflexivity |].
      intros Hn. rewrite Hf, Hn in F. discriminate F.
    + eexists. split; [reflexivity |]. left. cbn.
      rewrite filter_all by reflexivity. rewrite Hd. split; reflexivity.
  - eexists. split; [reflexivity |]. right. split; [reflexivity |].
    intros Hn. rewrite Hn in F. discriminate F.
Qed.

Lemma findById_connected (id : string) (w : world) :
  connected w = true ->
  Product.findById id w
  = match faults w (length (trace w)) with
    | None =>
        (Returned (find (Product.has_id id) (collection w)),
         mkWorld true (collection w) (next_id w) (faults w)
                 (trace w ++ [FindById id]) (console w))
    | Some f =>
        (Threw (DriverError f),
         mkWorld true (collection w) (next_id w) (faults w)
                 (trace w ++ [FindById id]) (console w))
    end.
Proof.
  intros H. unfold Product.findById, with_connection, bind, is_connected, round_trip.
  rewrite H. simpl. destruct (faults w (length (trace w))); simpl; rewrite H; reflexivity.
Qed.

(** The lookup by a well-formed identifier on a store that answers. *)
Lemma GET_by_id_healthy (id : string) (w : world) :
  ObjectId.isValid id = true ->
  no_faults w ->
  responded (ProductByIdRoute.GET id w)
  = Some (match find (Product.has_id id) (collection w) with
          | Some doc => NextResponse_json (JObj doc) 200
          | None => NextResponse_json (JStr "Product not found") 404
          end).
Proof.
  intros Hid Hn.
  unfold ProductByIdRoute.GET, try_catch, bind at 1.
  destruct (connectToDB_healthy w Hn) as [w' [E [Hc [Hd [_ Hn']]]]]. rewrite E.
  rewrite Hid. cbn [negb]. unfold bind. rewrite (findById_connected id w' Hc).
  rewrite Hn', Hd. destruct (find (Product.has_id id) (collection w)); reflexivity.
Qed.







(** ** Deleting *)

Lemma findByIdAndDelete_connected (id : string) (w : world) :
  connected w = true ->
  Product.findByIdAndDelete id w
  = match faults w (length (trace w)) with
    | None =>
        match find (Product.has_id id) (collection w) with
        | None =>
            (Returned None,
             mkWorld true (collection w) (next_id w) (faults w)
                     (trace w ++ [FindByIdAndDelete id]) (console w))
        | Some doc =>
            (Returned (Some doc),
             mkWorld true (Product.remove_first (Product.has_id id) (collection w))
                     (next_id w) (faults w)
                     (trace w ++ [FindByIdAndDelete id]) (console w))
        end
    | Some f =>
        (Threw (DriverError f),
         mkWorld true (collection w) (next_id w) (faults w)
                 (trace w ++ [FindByIdAndDelete id]) (console w))
    end.
Proof.
  intros H.
  unfold Product.findByIdAndDelete, with_connection, bind, is_connected, round_trip.
  rewrite H. simpl. destruct (faults w (length (trace w))); simpl; [rewrite H; reflexivity |].
  destruct (find (Product.has_id id) (collection w)); simpl; rewrite H; reflexivity.
Qed.

Lemma well_formed_id_not_empty (id : string) :
  ObjectId.isValid id = true -> String.eqb id "" = false.
Proof. destruct id; [discriminate | reflexivity]. Qed.


(** The run of DELETE with a well-formed identifier on a store that
    answers. *)
Lemma DELETE_healthy_run (id : string) (w : world) :
  ObjectId.isValid id = true ->
  no_faults w ->
  exists w',
    ProductByIdRoute.DELETE id w
    = (Returned
         (match find (Product.has_id id) (collection w) with
          | Some doc =>
              NextResponse_json
                (JObj [("message", JStr "Product deleted successfully");
                       ("deletedProduct", JObj doc)]) 200
          | None => NextResponse_json (error_body "Product not found") 404
          end), w')
    /\ collection w'
       = match find (Product.has_id id) (collection w) with
         | Some _ => Product.remove_first (Product.has_id id) (collection w)
         | None => collection w
         end
    /\ no_faults w'.
Proof.
  intros Hid Hn. unfold ProductByIdRoute.DELETE.
  rewrite (well_formed_id_not_empty id Hid).
  unfold try_catch, bind at 1.
  destruct (connectToDB_healthy w Hn) as [w1 [E [Hc [Hd [_ Hn1]]]]]. rewrite E.
  rewrite Hid. cbn [negb]. unfold bind. rewrite (findByIdAndDelete_connected id w1 Hc).
  rewrite Hn1, Hd.
  destruct (find (Product.has_id id) (collection w));
    eexists; (split; [reflexivity |]); (split; [reflexivity | exact Hn1]).
Qed.



Lemma find_remove_first_none (p : document -> bool) (docs : list document) :
  length (filter p docs) <= 1 -> find p (Product.remove_first p docs) = None.
Proof.
  induction docs as [| d docs IH]; [reflexivity |].
  cbn [filter Product.remove_first]. destruct (p d) eqn:E.
  - cbn [length]. intros H. assert (H0 : filter p docs = []).
    { destruct (filter p docs); [reflexivity | cbn in H; lia]. }
    clear H IH. induction docs as [| d' docs IH]; [reflexivity |].
    cbn [filter] in H0. cbn [find]. destruct (p d'); [discriminate H0 | apply IH; exact H0].
  - intros H. cbn [find]. rewrite E. apply IH. exact H.
Qed.

(** X7.  Delete, then get.  When at most one document carries a
    well-formed identifier and the store answers, a GET by that identifier
    after a DELETE by it is answered 404, whether or not the DELETE found
    the document. *)
Theorem X7_DELETE_then_GET_is_404 (id : string) (w : world) :
  ObjectId.isValid id = true ->
  no_faults w ->
  count_id id (collection w) <= 1 ->
  responded (ProductByIdRoute.GET id (world_after (ProductByIdRoute.DELETE id w)))
  = Some (NextResponse_json (JStr "Product not found") 404).
Proof.
  intros Hid Hn Hu.
  destruct (DELETE_healthy_run id w Hid Hn) as [w' [E [Hc Hn']]].
  unfold world_after at 1. rewrite E. cbn [snd].
  rewrite (GET_by_id_healthy id w' Hid Hn'). rewrite Hc.
  destruct (find (Product.has_id id) (collection w)) eqn:F.
  - rewrite (find_remove_first_none _ _ Hu). reflexivity.
  - rewrite F. reflexivity.
Qed.

Lemma X7_DELETE_then_GET_witness :
  let w := world_after (ProductsRoute.POST sample_isUrl (mkRequest [] (Json iphone))
                          (fresh_world healthy)) in
  ObjectId.isValid "000000000000000000000000" = true
  /\ count_id "000000000000000000000000" (collection w) = 1
  /\ option_map status (responded (ProductByIdRoute.GET "000000000000000000000000" w))
     = Some 200
  /\ responded (ProductByIdRoute.GET "000000000000000000000000"
                  (world_after (ProductByIdRoute.DELETE "000000000000000000000000" w)))
     = Some (NextResponse_json (JStr "Product not found") 404).
Proof.
  intros w.
  split; [reflexivity | split; [reflexivity | split; [reflexivity |]]].
  apply (X7_DELETE_then_GET_is_404 "000000000000000000000000" w);
    [reflexivity | intros n; reflexivity | cbn; lia].
Defined.

(** ** Creating and updating *)

Section Writing.
Variable isUrl : string -> bool.

(** An accepted payload is an object and parses to its six fields. *)
Lemma accepted_parse (payload : jsvalue) :
  accepts isUrl payload = true ->
  exists props,
    payload = JObj props
    /\ Zod.safeParse isUrl productSchema payload
       = Zod.ParseSuccess (JObj (Zod.strip productSchema props)).
Proof.
  unfold accepts. intros H.
  destruct (Zod.safeParse isUrl productSchema payload) as [data |] eqn:Hp;
    [| discriminate H].
  destruct (safeParse_success isUrl payload data Hp) as [_ [_ [props [-> ->]]]].
  exists props. split; reflexivity.
Qed.



(** The document POST builds from validated data: its keys, and its
    values at the six fields. *)
Lemma new_product_shape (id : jsvalue) (props : list (string * jsvalue)) :
  accepts isUrl (JObj props) = true ->
  let data := Zod.strip productSchema props in
  let doc := ("_id", id)
               :: obj [("title", get_prop "title" data);
                       ("description", get_prop "description" data);
                       ("category", get_prop "category" data);
                       ("imageUrl", get_prop "imageUrl" data);
                       ("creator", get_prop "creator" data);
                       ("price", get_prop "price" data)] in
  map fst doc
  = ["_id"; "title"; "description"; "category"; "imageUrl"; "creator"; "price"]
  /\ forall k, In k Spec.field_names -> get_prop k doc = get_prop k props.
Proof.
  intros Ha data doc. split.
  - subst doc data.
    destruct (strip_accepted isUrl props Ha) as (t & d & c & i & p & cr & ->).
    reflexivity.
  - intros k Hk. subst doc. rewrite (new_product_fields id data k Hk).
    subst data. rewrite get_prop_strip.
    simpl in Hk.
    destruct Hk as [<- | [<- | [<- | [<- | [<- | [<- | []]]]]]]; reflexivity.
Qed.

(** The run of POST on an accepted payload with the store answering. *)
Lemma POST_healthy_run (req : request) (w : world) (props : list (string * jsvalue)) :
  body req = Json (JObj props) ->
  accepts isUrl (JObj props) = true ->
  no_faults w ->
  exists w' doc,
    ProductsRoute.POST isUrl req w
    = (Returned (NextResponse_json (JStr "product has been created") 201), w')
    /\ collection w' = collection w ++ [doc]
    /\ next_id w' = S (next_id w)
    /\ no_faults w'
    /\ map fst doc
       = ["_id"; "title"; "description"; "category"; "imageUrl"; "creator"; "price"]
    /\ forall k, In k Spec.field_names -> get_prop k doc = get_prop k props.
Proof.
  intros Hb Ha Hn.
  destruct (accepted_parse _ Ha) as [props' [Hp' Hp]].
  injection Hp' as <-.
  unfold ProductsRoute.POST, try_catch, bind at 1, req_json, bind at 1, emit.
  rewrite Hb. cbn [ret]. rewrite Hp. unfold bind at 1.
  match goal with
  | |- context [connectToDB ?w1] =>
      assert (Hn1 : no_faults w1) by exact Hn;
      destruct (connectToDB_healthy w1 Hn1) as [w2 [E [Hc [Hd [Hi Hn2]]]]];
      rewrite E; cbn [collection next_id] in Hd, Hi
  end.
  unfold bind at 1, Product.new, bind at 1, bump_id. cbn [ret].
  unfold bind at 1. rewrite save_connected by exact Hc.
  cbn [connected collection next_id faults trace console].
  rewrite Hn2. unfold prop.
  destruct (new_product_shape (JStr (Product.fresh_id (next_id w2))) props Ha)
    as [Hk Hv].
  do 2 eexists. split; [reflexivity |].
  cbn [collection next_id]. rewrite Hd, Hi. rewrite Hi in Hk, Hv.
  split; [reflexivity |]. split; [reflexivity |].
  split; [exact Hn2 |]. split; [exact Hk | exact Hv].
Qed.


End Writing.



Section Updating.
Variable isUrl : string -> bool.







(** The dashboard listing for a non-empty creator on a store that
    answers. *)
Lemma dashboard_healthy (req : request) (w : world) (a : ascii) (c : string) :
  searchParams_get "creator" (searchParams req) = Some (String a c) ->
  no_faults w ->
  responded (DashboardRoute.GET req w)
  = Some (NextResponse_json
            (JArr (map JObj (filter (created_by (String a c)) (collection w)))) 200).
Proof.
  intros Hq Hn. unfold DashboardRoute.GET. rewrite Hq. cbv zeta.
  unfold try_catch, bind at 1.
  destruct (connectToDB_healthy w Hn) as [w' [E [Hc [Hd [_ Hn']]]]]. rewrite E.
  unfold bind. rewrite (find_connected _ w' Hc). rewrite Hn', Hd.
  cbn. rewrite (filter_ext _ _ (matches_creator (String a c))). reflexivity.
Qed.

(** X12.  Create, then list by creator.  After a POST of an accepted
    payload on a store that answers, the dashboard asked for the payload's
    creator answers 200 with the products of that creator that were there
    before, followed by the one just created. *)
Theorem X12_POST_then_dashboard_lists_product
    (req query : request) (w : world) (props : list (string * jsvalue)) (c : string) :
  body req = Json (JObj props) ->
  accepts isUrl (JObj props) = true ->
  no_faults w ->
  get_prop "creator" props = Some (JStr c) ->
  searchParams_get "creator" (searchParams query) = Some c ->
  exists doc,
    collection (world_after (ProductsRoute.POST isUrl req w)) = collection w ++ [doc]
    /\ get_prop "creator" doc = Some (JStr c)
    /\ responded (DashboardRoute.GET query (world_after (ProductsRoute.POST isUrl req w)))
       = Some (NextResponse_json
                 (JArr (map JObj (filter (created_by c) (collection w) ++ [doc]))) 200).
Proof.
  intros Hb Ha Hn Hc Hq.
  destruct (POST_healthy_run isUrl req w props Hb Ha Hn)
    as (w' & doc & E & Hcol & _ & Hn' & _ & Hv).
  assert (Hd : get_prop "creator" doc = Some (JStr c)).
  { rewrite (Hv "creator") by (simpl; tauto). exact Hc. }
  assert (Hne : exists a c', c = String a c').
  { rewrite accepts_iff_acceptable in Ha. unfold Spec.acceptable in Ha.
    cbn [forallb Spec.field_names] in Ha. rewrite !andb_true_iff in Ha.
    destruct Ha as (_ & _ & _ & _ & _ & H6 & _).
    unfold Spec.satisfies, prop in H6. rewrite Hc in H6.
    destruct c as [| a c']; [discriminate H6 | exists a, c'; reflexivity]. }
  destruct Hne as (a & c' & ->).
  exists doc. unfold world_after. rewrite E. cbn [snd].
  split; [exact Hcol |]. split; [exact Hd |].
  rewrite (dashboard_healthy query w' a c' Hq Hn'). rewrite Hcol, filter_app.
  cbn [filter]. unfold created_by at 2. rewrite Hd, String.eqb_refl. reflexivity.
Qed.

End Updating.



Lemma X12_POST_then_dashboard_witness :
  exists doc,
    collection (world_after
                  (ProductsRoute.POST sample_isUrl (mkRequest [] (Json (JObj cheaper_iphone)))
                     one_product_world))
    = collection one_product_world ++ [doc]
    /\ get_prop "creator" doc = Some (JStr "apple")
    /\ responded
         (DashboardRoute.GET (mkRequest [("creator", "apple")] (Json JNull))
            (world_after
               (ProductsRoute.POST sample_isUrl (mkRequest [] (Json (JObj cheaper_iphone)))
                  one_product_world)))
       = Some (NextResponse_json
                 (JArr (map JObj (filter (created_by "apple") (collection one_product_world)
                                    ++ [doc]))) 200).
Proof.
  exact (X12_POST_then_dashboard_lists_product sample_isUrl
           (mkRequest [] (Json (JObj cheaper_iphone)))
           (mkRequest [("creator", "apple")] (Json JNull))
           one_product_world cheaper_iphone "apple"
           eq_refl eq_refl (fun n => eq_refl) eq_refl eq_refl).
Defined.

(** ** The bodies of 404 *)

Lemma catch_all_ends_with (P : response -> Prop) (body : M response) (label : string)
    (b : exn -> jsvalue) :
  (forall e, P (NextResponse_json (b e) 500)) ->
  ends_with P anything body ->
  ends_with P nothing
    (try_catch body
       (fun error => call console_error label error; ret (NextResponse_json (b error) 500))).
Proof.
  intros H5 Hb. apply (ends_with_try_catch _ anything); [exact Hb |].
  intros e _. apply (ends_with_bind anything); [apply console_error_ends |].
  intros _ _. apply ends_with_ret. apply H5.
Qed.

Ltac not_found_steps :=
  repeat first
    [ apply ends_with_ret; unfold not_found_is; cbn; first [discriminate | reflexivity]
    | apply (ends_with_bind anything); [apply ends_with_any | intros ? _]
    | match goal with
      | |- ends_with _ _ (let _ := _ in _) => cbv zeta
      | |- ends_with _ _ (match ?x with _ => _ end) => destruct x
      | |- ends_with _ _ (if ?b then _ else _) => destruct b
      end ].

(** X13.  The body of a 404 depends on the handler: GET by identifier
    answers the bare string [Product not found], PUT and DELETE answer
    the object [{ error: Product not found }]; this holds for every
    request and world. *)
Theorem X13_not_found_bodies
    (isUrl : string -> bool) (req : request) (id : string) (w : world) (r : response) :
  status r = 404 ->
  (responded (ProductByIdRoute.GET id w) = Some r ->
   response_body r = JStr "Product not found")
  /\ (responded (ProductByIdRoute.PUT isUrl req id w) = Some r ->
      response_body r = error_body "Product not found")
  /\ (responded (ProductByIdRoute.DELETE id w) = Some r ->
      response_body r = error_body "Product not found").
Proof.
  intros Hs.
  assert (G : ends_with (not_found_is (JStr "Product not found")) nothing
                (ProductByIdRoute.GET id)).
  { unfold ProductByIdRoute.GET.
    refine (catch_all_ends_with _ _ _ _ _ _); [intros e; discriminate | not_found_steps]. }
  assert (P : ends_with (not_found_is (error_body "Product not found")) nothing
                (ProductByIdRoute.PUT isUrl req id)).
  { unfold ProductByIdRoute.PUT. destruct (ObjectId.isValid id); cbn [negb].
    - refine (catch_all_ends_with _ _ _ _ _ _); [intros e; discriminate | not_found_steps].
    - not_found_steps. }
  assert (D : ends_with (not_found_is (error_body "Product not found")) nothing
                (ProductByIdRoute.DELETE id)).
  { unfold ProductByIdRoute.DELETE. destruct (String.eqb id "").
    - not_found_steps.
    - refine (catch_all_ends_with _ _ _ _ _ _); [intros e; discriminate | not_found_steps]. }
  repeat split; intros H.
  - destruct (ends_with_responds _ _ w G) as [r' [Hr Hb]].
    rewrite H in Hr. injection Hr as <-. apply Hb. exact Hs.
  - destruct (ends_with_responds _ _ w P) as [r' [Hr Hb]].
    rewrite H in Hr. injection Hr as <-. apply Hb. exact Hs.
  - destruct (ends_with_responds _ _ w D) as [r' [Hr Hb]].
    rewrite H in Hr. injection Hr as <-. apply Hb. exact Hs.
Qed.

Lemma X13_not_found_witness :
  response_body (NextResponse_json (JStr "Product not found") 404) = JStr "Product not found".
Proof.
  apply (X13_not_found_bodies sample_isUrl (mkRequest [] (Json JNull)) a_well_formed_id
           (fresh_world healthy) (NextResponse_json (JStr "Product not found") 404)
           eq_refl).
  reflexivity.
Defined.

(** ** The connection helper on failure *)

Lemma dials_app (l1 l2 : list effect) : dials (l1 ++ l2) = dials l1 + dials l2.
Proof. unfold dials. rewrite filter_app. apply length_app. Qed.

(** X14.  When the dial fails, [connectToDB] throws the same fixed error
    whatever the driver reported, writes what the driver reported to the
    console, and leaves the connection closed; the failure is not
    remembered, so the next call dials again. *)
Theorem X14_connectToDB_hides_cause_and_retries (w : world) (f : driver_fault) :
  connected w = false ->
  faults w (length (trace w)) = Some f ->
  fst (connectToDB w) = Threw (Error "Failed to connect to mongoDb")
  /\ console (snd (connectToDB w))
     = console w ++ [log_error "Failed to connect to MongoDB:" (DriverError f)]
  /\ connected (snd (connectToDB w)) = false
  /\ collection (snd (connectToDB w)) = collection w
  /\ dials (trace (snd (connectToDB (snd (connectToDB w))))) = dials (trace w) + 2.
Proof.
  intros Hc F. rewrite (connectToDB_fails w f Hc F). cbn [fst snd console connected collection].
  repeat split.
  match goal with
  | |- context [connectToDB ?w1] =>
      destruct (connectToDB_cases w1) as [[H _] | [[_ [_ E]] | [f' [_ [_ E]]]]];
      [discriminate H | rewrite E | rewrite E]
  end; cbn [snd trace]; rewrite !dials_app; cbn; lia.
Qed.

Lemma X14_connectToDB_witness :
  fst (connectToDB (fresh_world (fails_at 0 connection_refused)))
  = Threw (Error "Failed to connect to mongoDb")
  /\ dials (trace (snd (connectToDB
                          (snd (connectToDB (fresh_world (fails_at 0 connection_refused)))))))
     = 2.
Proof.
  destruct (X14_connectToDB_hides_cause_and_retries
              (fresh_world (fails_at 0 connection_refused)) connection_refused
              eq_refl eq_refl) as (H1 & _ & _ & _ & H5).
  split; [exact H1 | exact H5].
Defined.

(** ** More on the validator *)

Section ValidatorMore.
Variable isUrl : string -> bool.

Lemma errors_of_field_parse_value (k k' : string) (sch : Zod.schema)
    (v : option jsvalue) :
  errors_of_field k (Zod.parse_value isUrl [k'] sch v)
  = if String.eqb k' k then Zod.parse_value isUrl [k'] sch v else [].
Proof.
  unfold errors_of_field.
  assert (H : forall l : list Zod.issue,
             (forall i, In i l -> Zod.path i = [k']) ->
             filter (names_field k) l = if String.eqb k' k then l else []).
  { induction l as [| i l IH]; intros Hl.
    - destruct (String.eqb k' k); reflexivity.
    - assert (Hi : names_field k i = String.eqb k' k).
      { unfold names_field, field_of.
        rewrite (Hl i (or_introl eq_refl)). reflexivity. }
      cbn [filter]. rewrite Hi.
      specialize (IH (fun j Hj => Hl j (or_intror Hj))).
      destruct (String.eqb k' k); rewrite IH; reflexivity. }
  apply H. intros i Hi. apply (parse_value_path isUrl _ _ _ _ Hi).
Qed.

(** The errors that name a field of an object payload are the issues of
    that field's own schema on that field's value. *)
Lemma errors_of_field_object (props : list (string * jsvalue)) :
  errors_of_field "title" (issues_of isUrl (JObj props))
  = Zod.parse_value isUrl ["title"]
      (Zod.z_string [Zod.str_min 1 "Title is required"]) (get_prop "title" props)
  /\ errors_of_field "description" (issues_of isUrl (JObj props))
     = Zod.parse_value isUrl ["description"]
         (Zod.z_string [Zod.str_min 1 "Description is required"])
         (get_prop "description" props)
  /\ errors_of_field "category" (issues_of isUrl (JObj props))
     = Zod.parse_value isUrl ["category"]
         (Zod.z_enum ["men"; "women"; "electronics"; "jewelry"])
         (get_prop "category" props)
  /\ errors_of_field "imageUrl" (issues_of isUrl (JObj props))
     = Zod.parse_value isUrl ["imageUrl"]
         (Zod.z_string [Zod.str_url; Zod.str_min 1 "Image URL is required"])
         (get_prop "imageUrl" props)
  /\ errors_of_field "price" (issues_of isUrl (JObj props))
     = Zod.parse_value isUrl ["price"]
         (Zod.z_number [Zod.num_min 1%Q "Price is required"]) (get_prop "price" props)
  /\ errors_of_field "creator" (issues_of isUrl (JObj props))
     = Zod.parse_value isUrl ["creator"]
         (Zod.z_string [Zod.str_min 1 "Creator is required"]) (get_prop "creator" props).
Proof.
  rewrite issues_of_object_payload, issues_of_object.
  assert (A : forall k l1 l2, errors_of_field k (l1 ++ l2)
                              = errors_of_field k l1 ++ errors_of_field k l2)
    by (intros; apply filter_app).
  repeat split; rewrite !A, !errors_of_field_parse_value;
    cbn [String.eqb Ascii.eqb Bool.eqb andb app]; rewrite ?app_nil_r; reflexivity.
Qed.

(** X15.  No coercion and no check on a value of the wrong type: a field
    of an object payload that is missing, or is not of the JSON type the
    schema declares for it (a number for price, a string for the others),
    is reported by exactly one error, a type error; for a missing field
    its message is [Required].  In particular a price sent as a numeric
    string is refused, and a missing imageUrl is reported once, not
    twice. *)
Theorem X15_wrong_type_is_one_type_error (props : list (string * jsvalue)) (k : string) :
  In k Spec.field_names ->
  has_declared_type k (get_prop k props) = false ->
  exists msg,
    errors_of_field k (issues_of isUrl (JObj props))
    = [Zod.mkIssue Zod.invalid_type [k] msg]
    /\ (get_prop k props = None -> msg = "Required").
Proof.
  intros Hk Ht.
  destruct (errors_of_field_object props) as (E1 & E2 & E3 & E4 & E5 & E6).
  simpl in Hk.
  destruct Hk as [<- | [<- | [<- | [<- | [<- | [<- | []]]]]]];
    [rewrite E1 | rewrite E2 | rewrite E3 | rewrite E4 | rewrite E5 | rewrite E6];
    match goal with
    | |- context [get_prop ?k props] =>
        destruct (get_prop k props) as [[ | b | x | s | items | ps] |]
    end;
    try discriminate Ht;
    (eexists; split; [reflexivity | intros H; first [discriminate H | reflexivity]]).
Qed.

(** X16.  The messages of the length and bound checks are the ones the
    schema gives: an empty title, description or creator is reported once
    with [Title is required], [Description is required] or
    [Creator is required]; a numeric price below 1 once with
    [Price is required]; a string imageUrl is reported with
    [Invalid url] when it does not parse as a URL and then with
    [Image URL is required] when it is empty. *)
Theorem X16_check_messages (props : list (string * jsvalue)) :
  (get_prop "title" props = Some (JStr "") ->
   errors_of_field "title" (issues_of isUrl (JObj props))
   = [Zod.mkIssue Zod.too_small ["title"] "Title is required"])
  /\ (get_prop "description" props = Some (JStr "") ->
      errors_of_field "description" (issues_of isUrl (JObj props))
      = [Zod.mkIssue Zod.too_small ["description"] "Description is required"])
  /\ (get_prop "creator" props = Some (JStr "") ->
      errors_of_field "creator" (issues_of isUrl (JObj props))
      = [Zod.mkIssue Zod.too_small ["creator"] "Creator is required"])
  /\ (forall x, get_prop "price" props = Some (JNum x) -> Qle_bool 1%Q x = false ->
      errors_of_field "price" (issues_of isUrl (JObj props))
      = [Zod.mkIssue Zod.too_small ["price"] "Price is required"])
  /\ (forall s, get_prop "imageUrl" props = Some (JStr s) ->
      errors_of_field "imageUrl" (issues_of isUrl (JObj props))
      = (if isUrl s then [] else [Zod.mkIssue Zod.invalid_string ["imageUrl"] "Invalid url"])
        ++ (if String.eqb s "" then
              [Zod.mkIssue Zod.too_small ["imageUrl"] "Image URL is required"]
            else [])).
Proof.
  destruct (errors_of_field_object props) as (E1 & E2 & E3 & E4 & E5 & E6).
  repeat split.
  - intros H. rewrite E1, H. reflexivity.
  - intros H. rewrite E2, H. reflexivity.
  - intros H. rewrite E6, H. reflexivity.
  - intros x H Hx. rewrite E5, H. cbn. rewrite Hx. reflexivity.
  - intros s H. rewrite E4, H. cbn. destruct (isUrl s); destruct s; reflexivity.
Qed.

(** X17.  The data of a successful parse is an object with exactly the
    six fields of the schema, in the schema's order, each with the value
    the payload has there: every other key of the payload is dropped. *)
Theorem X17_validated_data_has_six_fields (payload data : jsvalue) :
  Zod.safeParse isUrl productSchema payload = Zod.ParseSuccess data ->
  exists t d c i p cr,
    data = JObj [("title", t); ("description", d); ("category", c);
                 ("imageUrl", i); ("price", p); ("creator", cr)]
    /\ prop "title" payload = Some t
    /\ prop "description" payload = Some d
    /\ prop "category" payload = Some c
    /\ prop "imageUrl" payload = Some i
    /\ prop "price" payload = Some p
    /\ prop "creator" payload = Some cr.
Proof.
  intros Hp.
  destruct (safeParse_success isUrl payload data Hp) as [Ha [_ [props [-> ->]]]].
  assert (Hs : forall k, In k Spec.field_names ->
                get_prop k (Zod.strip productSchema props) = get_prop k props).
  { intros k Hk. rewrite get_prop_strip. simpl in Hk.
    destruct Hk as [<- | [<- | [<- | [<- | [<- | [<- | []]]]]]]; reflexivity. }
  destruct (strip_accepted isUrl props Ha) as (t & d & c & i & p & cr & E).
  rewrite E in Hs. exists t, d, c, i, p, cr. rewrite E. unfold prop.
  split; [reflexivity |].
  repeat split; symmetry;
    [ exact (Hs "title" ltac:(simpl; tauto))
    | exact (Hs "description" ltac:(simpl; tauto))
    | exact (Hs "category" ltac:(simpl; tauto))
    | exact (Hs "imageUrl" ltac:(simpl; tauto))
    | exact (Hs "price" ltac:(simpl; tauto))
    | exact (Hs "creator" ltac:(simpl; tauto)) ].
Qed.

(** X18.  What the schema accepts, the model accepts: a document that has
    the values of an accepted payload at the six fields fails none of the
    [required] and [enum] validators of the Product model, so the
    validation the model runs on save cannot refuse what POST saves. *)
Theorem X18_accepted_data_passes_model_validators
    (props : list (string * jsvalue)) (doc : document) :
  accepts isUrl (JObj props) = true ->
  (forall k, In k Spec.field_names -> get_prop k doc = get_prop k props) ->
  ProductModel.validate ProductModel.ProductSchema doc = [].
Proof.
  intros Ha Hv.
  rewrite accepts_iff_acceptable in Ha. unfold Spec.acceptable in Ha.
  cbn [forallb Spec.field_names] in Ha. rewrite !andb_true_iff in Ha.
  destruct Ha as (H1 & H2 & H3 & H4 & H5 & H6 & _).
  unfold Spec.satisfies, prop in *.
  unfold ProductModel.ProductSchema. cbn [ProductModel.validate].
  rewrite !Hv by (simpl; tauto).
  destruct (get_prop "title" props) as [[ | | | [| ? ?] | | ] |]; try discriminate H1.
  destruct (get_prop "description" props) as [[ | | | [| ? ?] | | ] |]; try discriminate H2.
  destruct (get_prop "creator" props) as [[ | | | [| ? ?] | | ] |]; try discriminate H6.
  destruct (get_prop "price" props) as [[ | | x | | | ] |]; try discriminate H5.
  destruct (get_prop "imageUrl" props) as [[ | | | [| ? ?] | | ] |]; try discriminate H4.
  destruct (get_prop "category" props) as [[ | | | cat | | ] |]; try discriminate H3.
  unfold Spec.field_rule in H3. cbn [String.eqb Ascii.eqb Bool.eqb andb] in H3.
  unfold Spec.in_categories in H3.
  assert (Hm : Zod.mem_string cat ["men"; "women"; "electronics"; "jewelry"] = true).
  { cbn [Zod.mem_string]. rewrite orb_false_r, !orb_assoc. exact H3. }
  destruct cat as [| a3 s3]; [discriminate H3 |].
  unfold ProductModel.failed_validators.
  cbn [ProductModel.required ProductModel.type ProductModel.enum
       ProductModel.checkRequired ProductModel.checkEnum].
  rewrite Hm. reflexivity.
Qed.

End ValidatorMore.

Lemma X15_wrong_type_witness :
  exists msg,
    errors_of_field "price" (issues_of sample_isUrl (JObj [("price", JStr "5")]))
    = [Zod.mkIssue Zod.invalid_type ["price"] msg]
    /\ (get_prop "price" [("price", JStr "5")] = None -> msg = "Required").
Proof.
  apply (X15_wrong_type_is_one_type_error sample_isUrl [("price", JStr "5")] "price").
  - simpl. tauto.
  - reflexivity.
Defined.

Lemma X16_check_messages_witness :
  let props := [("title", JStr ""); ("price", JNum 0%Q); ("imageUrl", JStr "")] in
  errors_of_field "title" (issues_of sample_isUrl (JObj props))
  = [Zod.mkIssue Zod.too_small ["title"] "Title is required"]
  /\ errors_of_field "price" (issues_of sample_isUrl (JObj props))
     = [Zod.mkIssue Zod.too_small ["price"] "Price is required"]
  /\ errors_of_field "imageUrl" (issues_of sample_isUrl (JObj props))
     = [Zod.mkIssue Zod.invalid_string ["imageUrl"] "Invalid url";
        Zod.mkIssue Zod.too_small ["imageUrl"] "Image URL is required"].
Proof.
  intros props.
  destruct (X16_check_messages sample_isUrl props) as (H1 & _ & _ & H4 & H5).
  split; [apply H1; reflexivity |].
  split; [apply (H4 0%Q); reflexivity |].
  apply (H5 ""). reflexivity.
Defined.

Lemma X17_validated_data_witness :
  exists t d c i p cr,
    JObj (Zod.strip productSchema iphone_with_extras)
    = JObj [("title", t); ("description", d); ("category", c);
            ("imageUrl", i); ("price", p); ("creator", cr)]
    /\ prop "title" (JObj iphone_with_extras) = Some t
    /\ prop "description" (JObj iphone_with_extras) = Some d
    /\ prop "category" (JObj iphone_with_extras) = Some c
    /\ prop "imageUrl" (JObj iphone_with_extras) = Some i
    /\ prop "price" (JObj iphone_with_extras) = Some p
    /\ prop "creator" (JObj iphone_with_extras) = Some cr.
Proof.
  exact (X17_validated_data_has_six_fields sample_isUrl (JObj iphone_with_extras)
           (JObj (Zod.strip productSchema iphone_with_extras)) eq_refl).
Defined.

Lemma X18_model_validators_witness :
  ProductModel.validate ProductModel.ProductSchema (("_id", JStr first_id) :: cheaper_iphone)
  = [].
Proof.
  apply (X18_accepted_data_passes_model_validators sample_isUrl cheaper_iphone).
  - reflexivity.
  - intros k Hk. simpl in Hk.
    destruct Hk as [<- | [<- | [<- | [<- | [<- | [<- | []]]]]]]; reflexivity.
Defined.

(** The model is laxer than the schema: a price of zero and an imageUrl
    that is no URL pass the model's validators and fail the schema. *)
Example model_laxer_than_schema :
  let doc := [("title", JStr "t"); ("description", JStr "d"); ("category", JStr "men");
              ("imageUrl", JStr "not a url"); ("price", JNum 0%Q); ("creator", JStr "c")] in
  ProductModel.validate ProductModel.ProductSchema doc = []
  /\ accepts sample_isUrl (JObj doc) = false
  /\ ProductModel.validate ProductModel.ProductSchema [("category", JStr "toys")]
     = [("title", "required"); ("description", "required"); ("category", "enum");
        ("imageUrl", "required"); ("price", "required"); ("creator", "required")].
Proof. repeat split. Qed.

(** ** No retries *)

Lemma repository_ops_app (l1 l2 : list effect) :
  repository_ops (l1 ++ l2) = repository_ops l1 + repository_ops l2.
Proof. unfold repository_ops. rewrite filter_app. apply length_app. Qed.

Lemma spends_nothing {A} (m : M A) :
  (forall w, trace (snd (m w)) = trace w /\ connected (snd (m w)) = connected w) ->
  spends 0 0 m.
Proof.
  intros H w. destruct (H w) as [Ht Hc]. exists [].
  rewrite app_nil_r, Hc.
  split; [exact Ht |]. split; [destruct (connected w); cbn; lia |].
  split; [cbn; lia | tauto].
Qed.

Lemma spends_weaken {A} (a b a' b' : nat) (m : M A) :
  spends a b m -> a <= a' -> b <= b' -> spends a' b' m.
Proof.
  intros H Ha Hb w. destruct (H w) as (es & Ht & Hd & Ho & Hc).
  exists es.
  split; [exact Ht |]. split; [destruct (connected w); lia |].
  split; [lia | exact Hc].
Qed.

Lemma spends_bind {A B} (a b a' b' : nat) (m : M A) (k : A -> M B) :
  spends a b m -> (forall x, spends a' b' (k x)) -> spends (a + a') (b + b') (bind m k).
Proof.
  intros Hm Hk w. unfold bind. destruct (Hm w) as (es & Ht & Hd & Ho & Hc).
  destruct (m w) as [[x | e] w1]; cbn [snd] in *.
  - destruct (Hk x w1) as (es' & Ht' & Hd' & Ho' & Hc').
    exists (es ++ es'). rewrite Ht', Ht, app_assoc, dials_app, repository_ops_app.
    split; [reflexivity |]. split; [| split; [lia | auto]].
    destruct (connected w) eqn:E.
    + rewrite (Hc eq_refl) in Hd'. lia.
    + destruct (connected w1); lia.
  - exists es.
    split; [exact Ht |]. split; [destruct (connected w); lia |].
    split; [lia | exact Hc].
Qed.

Lemma spends_try_catch {A} (a b : nat) (body : M A) (handler : exn -> M A) :
  spends a b body -> (forall e, spends 0 0 (handler e)) ->
  spends a b (try_catch body handler).
Proof.
  intros Hb Hh w. unfold try_catch. destruct (Hb w) as (es & Ht & Hd & Ho & Hc).
  destruct (body w) as [[x | e] w1]; cbn [snd] in *.
  - exists es. repeat split; assumption.
  - destruct (Hh e w1) as (es' & Ht' & Hd' & Ho' & Hc').
    exists (es ++ es'). rewrite Ht', Ht, app_assoc, dials_app, repository_ops_app.
    split; [reflexivity |]. split; [| split; [lia | auto]].
    destruct (connected w); destruct (connected w1); lia.
Qed.

Lemma connectToDB_spends : spends 1 0 connectToDB.
Proof.
  intros w.
  destruct (connectToDB_cases w) as [[Hc E] | [[Hc [_ E]] | [f [Hc [_ E]]]]];
    rewrite E, Hc; cbn [snd trace connected].
  - exists []. rewrite app_nil_r. repeat split; cbn; lia.
  - exists [Dial]. repeat split; cbn; lia.
  - exists [Dial]. split; [reflexivity |]. split; [cbn; lia |].
    split; [cbn; lia | discriminate].
Qed.

Lemma with_connection_open {A} (name : string) (op : M A) (w : world) :
  connected w = true -> with_connection name op w = op w.
Proof. intros H. unfold with_connection, bind, is_connected. rewrite H. reflexivity. Qed.

Lemma with_connection_closed {A} (name : string) (op : M A) (w : world) :
  connected w = false -> snd (with_connection name op w) = w.
Proof. intros H. unfold with_connection, bind, is_connected. rewrite H. reflexivity. Qed.

Lemma round_trip_then {A} (e : effect) (k : M A) (w : world) :
  (call round_trip e; k) w
  = match faults w (length (trace w)) with
    | Some f =>
        (Threw (DriverError f),
         mkWorld (connected w) (collection w) (next_id w) (faults w)
                 (trace w ++ [e]) (console w))
    | None =>
        k (mkWorld (connected w) (collection w) (next_id w) (faults w)
                   (trace w ++ [e]) (console w))
    end.
Proof.
  unfold bind, round_trip, emit, throw.
  destruct (faults w (length (trace w))); reflexivity.
Qed.

(** A repository operation: one round trip on an open connection, none on
    a closed one. *)
Lemma repository_spends {A} (name : string) (e : effect) (k : M A) :
  is_repository_op e = true ->
  (forall w, trace (snd (k w)) = trace w /\ connected (snd (k w)) = connected w) ->
  spends 0 1 (with_connection name (call round_trip e; k)).
Proof.
  intros He Hk w.
  assert (Hone : dials [e] <= 0 /\ repository_ops [e] <= 1).
  { unfold dials, repository_ops. cbn. rewrite He.
    destruct e; try discriminate He; cbn; lia. }
  destruct (connected w) eqn:Hc.
  - rewrite (with_connection_open _ _ _ Hc), round_trip_then.
    exists [e].
    destruct (faults w (length (trace w))); cbn [snd].
    + cbn [trace connected]. repeat split; try apply Hone. auto.
    + match goal with
      | |- context [k ?w1] => destruct (Hk w1) as [Ht Hcc]; rewrite Ht, Hcc
      end.
      cbn [trace connected]. repeat split; try apply Hone. auto.
  - rewrite (with_connection_closed _ _ _ Hc). exists []. rewrite app_nil_r.
    split; [reflexivity |]. split; [cbn; lia |]. split; [cbn; lia | discriminate].
Qed.

Lemma find_spends (filter : list (string * string)) : spends 0 1 (Product.find filter).
Proof. apply repository_spends; [reflexivity | intros w; split; reflexivity]. Qed.

Lemma findById_spends (id : string) : spends 0 1 (Product.findById id).
Proof. apply repository_spends; [reflexivity | intros w; split; reflexivity]. Qed.

Lemma save_spends (doc : document) : spends 0 1 (Product.save doc).
Proof. apply repository_spends; [reflexivity | intros w; split; reflexivity]. Qed.

Lemma findByIdAndUpdate_spends (id : string) (update : jsvalue) :
  spends 0 1 (Product.findByIdAndUpdate id update).
Proof.
  apply repository_spends; [reflexivity |].
  intros w. unfold bind, get_collection. cbn.
  destruct (find _ _); split; reflexivity.
Qed.

Lemma findByIdAndDelete_spends (id : string) : spends 0 1 (Product.findByIdAndDelete id).
Proof.
  apply repository_spends; [reflexivity |].
  intros w. unfold bind, get_collection. cbn.
  destruct (find _ _); split; reflexivity.
Qed.

Lemma ret_spends {A} (a : A) : spends 0 0 (ret a).
Proof. apply spends_nothing. intros w. split; reflexivity. Qed.

Lemma throw_spends {A} (e : exn) : spends 0 0 (@throw A e).
Proof. apply spends_nothing. intros w. split; reflexivity. Qed.

Lemma console_error_spends (label : string) (e : exn) : spends 0 0 (console_error label e).
Proof. apply spends_nothing. intros w. split; reflexivity. Qed.

Lemma new_spends (fields : list (string * jsvalue)) : spends 0 0 (Product.new fields).
Proof. apply spends_nothing. intros w. split; reflexivity. Qed.

Lemma req_json_spends (req : request) : spends 0 0 (req_json req).
Proof.
  intros w. exists [ReadBody]. unfold req_json, bind, emit.
  destruct (body req); cbn; repeat split; try (destruct (connected w); cbn; lia); auto.
Qed.

(** The catch branch of a handler logs and answers, or rethrows. *)
Ltac handler_spends :=
  intros ?;
  repeat first
    [ apply (spends_bind 0 0 0 0); [apply console_error_spends | intros ?]
    | apply ret_spends
    | apply throw_spends
    | match goal with
      | |- spends _ _ (match ?x with _ => _ end) => destruct x
      end ].

(** Connect, then one repository operation, then answer. *)
Ltac connect_then_operate op_lemma :=
  apply (spends_bind 1 0 0 1); [apply connectToDB_spends | intros ?];
  repeat match goal with
         | |- spends _ _ (let _ := _ in _) => cbv zeta
         | |- spends 0 1 (if ?b then _ else _) => destruct b
         | |- spends 0 1 (ret _) => apply (spends_weaken 0 0); [apply ret_spends | lia | lia]
         end;
  try (apply (spends_bind 0 1 0 0); [apply op_lemma | intros ?];
       repeat match goal with
              | |- spends _ _ (match ?x with _ => _ end) => destruct x
              end;
       apply ret_spends).

Lemma GET_products_spends : spends 1 1 ProductsRoute.GET.
Proof.
  unfold ProductsRoute.GET. apply spends_try_catch; [| handler_spends].
  connect_then_operate find_spends.
Qed.

Lemma dashboard_GET_spends (req : request) : spends 1 1 (DashboardRoute.GET req).
Proof.
  unfold DashboardRoute.GET. apply spends_try_catch; [| handler_spends].
  cbv zeta. destruct (searchParams_get "creator" (searchParams req)) as [[| a c] |].
  - apply (spends_weaken 0 0); [apply ret_spends | lia | lia].
  - connect_then_operate find_spends.
  - connect_then_operate find_spends.
Qed.

Lemma GET_by_id_spends (id : string) : spends 1 1 (ProductByIdRoute.GET id).
Proof.
  unfold ProductByIdRoute.GET. apply spends_try_catch; [| handler_spends].
  connect_then_operate findById_spends.
Qed.

Lemma DELETE_spends (id : string) : spends 1 1 (ProductByIdRoute.DELETE id).
Proof.
  unfold ProductByIdRoute.DELETE. destruct (String.eqb id "").
  - apply (spends_weaken 0 0); [apply ret_spends | lia | lia].
  - apply spends_try_catch; [| handler_spends].
    connect_then_operate findByIdAndDelete_spends.
Qed.

Lemma PUT_spends (isUrl : string -> bool) (req : request) (id : string) :
  spends 1 1 (ProductByIdRoute.PUT isUrl req id).
Proof.
  unfold ProductByIdRoute.PUT. destruct (ObjectId.isValid id); cbn [negb].
  - apply spends_try_catch; [| handler_spends].
    apply (spends_bind 0 0 1 1); [apply req_json_spends | intros payload].
    destruct (Zod.safeParse isUrl productSchema payload).
    + connect_then_operate findByIdAndUpdate_spends.
    + apply (spends_weaken 0 0); [apply ret_spends | lia | lia].
  - apply (spends_weaken 0 0); [apply ret_spends | lia | lia].
Qed.

Lemma POST_spends (isUrl : string -> bool) (req : request) :
  spends 1 1 (ProductsRoute.POST isUrl req).
Proof.
  unfold ProductsRoute.POST. apply spends_try_catch; [| handler_spends].
  apply (spends_bind 0 0 1 1); [apply req_json_spends | intros payload].
  destruct (Zod.safeParse isUrl productSchema payload).
  - cbv zeta.
    apply (spends_bind 1 0 0 1); [apply connectToDB_spends | intros ?].
    apply (spends_bind 0 0 0 1); [apply new_spends | intros ?].
    apply (spends_bind 0 1 0 0); [apply save_spends | intros ?].
    apply ret_spends.
  - apply (spends_weaken 0 0); [apply ret_spends | lia | lia].
Qed.

(** X19.  Nothing is retried.  In one run, on any request and whatever
    fails, each of the six handlers dials the store at most once, and not
    at all when the connection is open, and issues at most one repository
    operation. *)
Theorem X19_handlers_never_retry
    (isUrl : string -> bool) (req : request) (id : string) :
  spends 1 1 ProductsRoute.GET
  /\ spends 1 1 (ProductsRoute.POST isUrl req)
  /\ spends 1 1 (ProductByIdRoute.GET id)
  /\ spends 1 1 (ProductByIdRoute.PUT isUrl req id)
  /\ spends 1 1 (ProductByIdRoute.DELETE id)
  /\ spends 1 1 (DashboardRoute.GET req).
Proof.
  split; [apply GET_products_spends |].
  split; [apply POST_spends |].
  split; [apply GET_by_id_spends |].
  split; [apply PUT_spends |].
  split; [apply DELETE_spends | apply dashboard_GET_spends].
Qed.
